(** * MERN blog server: user and post controllers

    A shallow embedding of [controllers/postControllers.js] and
    [controllers/userControllers.js].  Each Express handler
    [async (req, res, next) => ...] becomes a computation in a small
    state-and-trace monad over a [World] made of the two MongoDB
    collections and the [uploads] folder.  The trace records, in the
    order the handler issues them, the file-system calls, the writes to
    the collections and the replies ([next(err)] and
    [res.status(..).json(..)]).

    Strings are Rocq strings of one-byte characters: the ASCII range of
    JavaScript strings. *)

From Stdlib Require Import String Ascii List ZArith Lia.
From stdpp Require Import gmap strings list fin_maps sorting infinite.
Import ListNotations.

Local Open Scope string_scope.
Local Open Scope list_scope.
Local Open Scope nat_scope.

(** ** JavaScript strings *)

Module Js.

Definition is_upper (c : ascii) : bool :=
  (65 <=? nat_of_ascii c)%nat && (nat_of_ascii c <=? 90)%nat.

Definition is_lower (c : ascii) : bool :=
  (97 <=? nat_of_ascii c)%nat && (nat_of_ascii c <=? 122)%nat.

Definition lower_char (c : ascii) : ascii :=
  if is_upper c then ascii_of_nat (nat_of_ascii c + 32) else c.

Definition upper_char (c : ascii) : ascii :=
  if is_lower c then ascii_of_nat (nat_of_ascii c - 32) else c.

(** [s.toLowerCase()] *)
Fixpoint toLowerCase (s : string) : string :=
  match s with
  | EmptyString => EmptyString
  | String c t => String (lower_char c) (toLowerCase t)
  end.

(** White space removed by [trim]: TAB, LF, VT, FF, CR and SPACE. *)
Definition is_space (c : ascii) : bool :=
  let n := nat_of_ascii c in
  ((9 <=? n)%nat && (n <=? 13)%nat) || (n =? 32)%nat.

Fixpoint trimStart (s : string) : string :=
  match s with
  | EmptyString => EmptyString
  | String c t => if is_space c then trimStart t else s
  end.

Fixpoint trimEnd (s : string) : string :=
  match s with
  | EmptyString => EmptyString
  | String c t =>
      match trimEnd t with
      | EmptyString => if is_space c then EmptyString else String c EmptyString
      | t' => String c t'
      end
  end.

(** [s.trim()] *)
Definition trim (s : string) : string := trimEnd (trimStart s).

(** [s.split(sep)] for a one-character separator; the result is never
    empty (splitting the empty string gives one empty string). *)
Fixpoint split (sep : ascii) (s : string) : list string :=
  match s with
  | EmptyString => [EmptyString]
  | String c t =>
      if Ascii.eqb c sep then EmptyString :: split sep t
      else match split sep t with
           | h :: r => String c h :: r
           | [] => [String c EmptyString]
           end
  end.

(** [!x] for a value that is a string or [undefined]. *)
Definition falsy (x : option string) : bool :=
  match x with
  | None => true
  | Some s => String.eqb s EmptyString
  end.

End Js.

(** ** Documents *)

(** Modelled from the spec: the [HttpError] class of
    [models/errorModel.js] is not among the sources; according to the
    spec an error is a structured object carrying a message and a
    status.  [new HttpError(message, errorCode)] stores both;
    constructed with one argument, the status is [undefined]. *)
Record HttpError := mkHttpError {
  message : string;
  code : option nat
}.

(** [bcrypt.hash(password, salt)], kept symbolic: a hash is the pair it
    was made from and can only be compared. *)
Inductive Hash := Bcrypt (salt password : string).

Definition bcrypt_compare (password : string) (h : Hash) : bool :=
  match h with Bcrypt _ p => String.eqb password p end.

(** Modelled from the spec: the User schema of [models/userModel.js] is
    not among the sources; the spec lists id, name, email, password,
    avatar (filename or absent) and posts (integer counter, default 0). *)
Record UserDoc := mkUser {
  user_id : string;
  user_name : string;
  user_email : string;
  user_password : Hash;
  user_avatar : option string;
  user_posts : Z
}.

(** Modelled from the spec: the Post schema of [models/postModel.js] is
    not among the sources; the spec lists id, title, category,
    description, thumbnail (filename), creator (a User id) and the
    created/updated timestamps. *)
Record PostDoc := mkPost {
  post_id : string;
  post_title : string;
  post_category : string;
  post_description : string;
  post_thumbnail : string;
  post_creator : string;
  post_createdAt : nat;
  post_updatedAt : nat
}.

(** The creator sub-document attached by [populate]. *)
Record Creator := mkCreator {
  creator_id : string;
  creator_name : string;
  creator_avatar : option string
}.

(** [jwt.sign({ id, name }, secret, { expiresIn })], kept symbolic. *)
Record Token := mkToken {
  token_id : string;
  token_name : string;
  token_expiresIn : string
}.

(** ** Requests *)

(** An uploaded file of [express-fileupload]. *)
Record File := mkFile {
  file_name : string;
  file_size : N
}.

(** [req.files]: the uploads by field name. *)
Record Files := mkFiles {
  thumbnail : option File;
  avatar : option File
}.

(** [req.user], set by the authorization middleware. *)
Record Identity := mkIdentity {
  id : string;
  name : string
}.

(** [req.body]; an absent field is [None]. *)
Record ReqBody := mkBody {
  title : option string;
  category : option string;
  description : option string;
  fullname : option string;
  email : option string;
  password : option string
}.

Record Request := mkRequest {
  params_id : string;
  params_category : string;
  body : ReqBody;
  files : option Files;
  user : Identity
}.

(** What a request draws from outside the program: the value of
    [uuid()], the salt of [bcrypt.genSalt] and the clock behind the
    timestamps. *)
Record Env := mkEnv {
  uuid : string;
  salt : string;
  now : nat
}.

(** ** The world and the effects on it *)

Record World := mkWorld {
  Users : gmap string UserDoc;
  Posts : gmap string PostDoc;
  uploads : gset string
}.

(** A JSON response body. *)
Inductive Json :=
| JText (s : string)
| JPost (p : PostDoc)
| JPosts (ps : list (PostDoc * option Creator))
| JLogin (token : Token) (id name newEmail : string)
| JAvatar (id : string) (avatar : option string).

Inductive Event :=
| FsUnlink (file : string) (err : option string)
| FileMv (file : string)
| PostCreated (doc : PostDoc)
| PostUpdated (id : string)
| PostDeleted (id : string)
| UserCreated (doc : UserDoc)
| UserUpdated (id : string)
| ConsoleLog (msg : string)
| Next (err : HttpError)
| Respond (status : nat) (body : Json)
| UnhandledRejection (msg : string).

Definition IO (A : Type) : Type := World → A * World * list Event.

Definition ret {A} (a : A) : IO A := λ w, (a, w, []).

Definition bind {A B} (m : IO A) (k : A → IO B) : IO B :=
  λ w, let '(a, w1, t1) := m w in
       let '(b, w2, t2) := k a w1 in
       (b, w2, t1 ++ t2).

Notation "'let*' x ':=' m 'in' k" := (bind m (λ x, k))
  (at level 10, x name, m at level 100, k at level 200).
Notation "m ;; k" := (bind m (λ _, k))
  (at level 100, right associativity).

Definition emit (e : Event) : IO unit := λ w, (tt, w, [e]).

(** [next(err)] *)
Definition next (err : HttpError) : IO unit := emit (Next err).

(** [res.status(status).json(body)] *)
Definition res_json (status : nat) (body : Json) : IO unit :=
  emit (Respond status body).

Definition console_log (msg : string) : IO unit := emit (ConsoleLog msg).

(** The state and the trace a handler leaves behind. *)
Definition run (h : IO unit) (w : World) : World * list Event :=
  let '(_, w', t) := h w in (w', t).

Definition is_reply (e : Event) : bool :=
  match e with
  | Next _ | Respond _ _ => true
  | _ => false
  end.

(** What the client is answered: the first reply of the trace. *)
Definition reply (t : list Event) : option Event := List.find is_reply t.

(** *** The uploads folder *)

Definition ENOENT (file : string) : string :=
  "ENOENT: no such file or directory, unlink '" +:+ file +:+ "'".

(** [fs.unlink(path.join(__dirname, "..", "uploads", file), cb)]: what
    [cb] receives as [err]. *)
Definition fs_unlink (file : string) : IO (option string) :=
  λ w, if bool_decide (file ∈ uploads w)
       then (None,
             mkWorld (Users w) (Posts w) (uploads w ∖ {[file]}),
             [FsUnlink file None])
       else (Some (ENOENT file), w, [FsUnlink file (Some (ENOENT file))]).

(** [file.mv(path.join(__dirname, "..", "uploads", newFilename), cb)]:
    what [cb] receives as [err].  The folder is part of the deployment
    and a move into it replaces a file of the same name: in this model
    of the folder the move does not fail and [err] is [None]; the
    handlers keep their branch for the other case. *)
Definition file_mv (f : File) (newFilename : string) : IO (option string) :=
  λ w, (None,
        mkWorld (Users w) (Posts w) ({[newFilename]} ∪ uploads w),
        [FileMv newFilename]).

(** *** The Post collection *)

Definition Post_findById (i : string) : IO (option PostDoc) :=
  λ w, (Posts w !! i, w, []).

(** [Post.create({...})]: the store assigns an id not yet in use. *)
Definition Post_create (e : Env) (title category description thumbnail creator : string)
  : IO PostDoc :=
  λ w, let doc := mkPost (fresh (dom (Posts w))) title category description
                         thumbnail creator (now e) (now e) in
       (doc,
        mkWorld (Users w) (<[post_id doc := doc]> (Posts w)) (uploads w),
        [PostCreated doc]).

(** [Post.findByIdAndUpdate(id, update, { new: true })] *)
Definition Post_findByIdAndUpdate (e : Env) (i : string) (update : PostDoc → PostDoc)
  : IO (option PostDoc) :=
  λ w, match Posts w !! i with
       | None => (None, w, [])
       | Some p =>
           let p' := update p in
           let doc := mkPost (post_id p) (post_title p') (post_category p')
                             (post_description p') (post_thumbnail p')
                             (post_creator p') (post_createdAt p) (now e) in
           (Some doc,
            mkWorld (Users w) (<[i := doc]> (Posts w)) (uploads w),
            [PostUpdated i])
       end.

(** [Post.findByIdAndDelete(id)] *)
Definition Post_findByIdAndDelete (i : string) : IO (option PostDoc) :=
  λ w, match Posts w !! i with
       | None => (None, w, [])
       | Some p =>
           (Some p, mkWorld (Users w) (delete i (Posts w)) (uploads w),
            [PostDeleted i])
       end.

(** [.sort({ updatedAt: -1 })] *)
Definition newer_first (p q : PostDoc) : Prop :=
  (post_updatedAt q ≤ post_updatedAt p)%nat.

Global Instance newer_first_dec p q : Decision (newer_first p q).
Proof. unfold newer_first. apply _. Defined.

(** [Post.find(filter).sort({ updatedAt: -1 })] *)
Definition Post_find_sorted (filter : PostDoc → bool) : IO (list PostDoc) :=
  λ w, (merge_sort newer_first
          (List.filter filter (snd <$> map_to_list (Posts w))), w, []).

(** *** The User collection *)

Definition User_findById (i : string) : IO (option UserDoc) :=
  λ w, (Users w !! i, w, []).

(** [User.findOne({ email })] *)
Definition User_findOne (email : string) : IO (option UserDoc) :=
  λ w, (List.find (λ u, String.eqb (user_email u) email)
          (snd <$> map_to_list (Users w)), w, []).

(** [User.create({ name, email, password })]: the store assigns the id;
    [avatar] is absent and [posts] takes its default. *)
Definition User_create (name email : string) (password : Hash) : IO UserDoc :=
  λ w, let doc := mkUser (fresh (dom (Users w))) name email password None 0%Z in
       (doc,
        mkWorld (<[user_id doc := doc]> (Users w)) (Posts w) (uploads w),
        [UserCreated doc]).

(** [User.findByIdAndUpdate(id, update, { new: true })] *)
Definition User_findByIdAndUpdate (i : string) (update : UserDoc → UserDoc)
  : IO (option UserDoc) :=
  λ w, match Users w !! i with
       | None => (None, w, [])
       | Some u =>
           let u' := update u in
           let doc := mkUser (user_id u) (user_name u') (user_email u')
                             (user_password u') (user_avatar u') (user_posts u') in
           (Some doc,
            mkWorld (<[i := doc]> (Users w)) (Posts w) (uploads w),
            [UserUpdated i])
       end.

Definition set_posts (n : Z) (u : UserDoc) : UserDoc :=
  mkUser (user_id u) (user_name u) (user_email u) (user_password u)
         (user_avatar u) n.

Definition set_avatar (a : string) (u : UserDoc) : UserDoc :=
  mkUser (user_id u) (user_name u) (user_email u) (user_password u)
         (Some a) (user_posts u).

Definition set_content (title category description : string) (p : PostDoc) : PostDoc :=
  mkPost (post_id p) title category description (post_thumbnail p)
         (post_creator p) (post_createdAt p) (post_updatedAt p).

Definition set_content_thumbnail (title category description thumbnail : string)
    (p : PostDoc) : PostDoc :=
  mkPost (post_id p) title category description thumbnail
         (post_creator p) (post_createdAt p) (post_updatedAt p).

(** [{ posts: NaN }] cannot be cast to the Number path: the update
    rejects, and inside a callback nothing catches the rejection. *)
Definition CastError_posts : string :=
  "CastError: Cast to Number failed for value NaN (type number) at path posts".

Definition TypeError_undefined (property : string) : string :=
  "TypeError: Cannot read properties of undefined (reading '" +:+ property +:+ "')".

(** The string held by a body field that passed the [!field] test. *)
Definition str (x : option string) : string := default EmptyString x.

(** ** Post controllers *)

Definition categories : list string :=
  ["Agriculture"; "Business"; "Education"; "Entertainment"; "Art";
   "Investment"; "Uncategorized"; "Weather"].

(** [isValidCategory(category)]: [Array.prototype.includes] *)
Definition isValidCategory (category : option string) : bool :=
  match category with
  | None => false
  | Some c => existsb (String.eqb c) categories
  end.

(** POST /api/posts/create-post.  [Post.create] resolves to the created
    document, so the [!newPost] test of the source never fires. *)
Definition createPost (e : Env) (req : Request) : IO unit :=
  let '(mkBody title category description _ _ _) := body req in
  if Js.falsy title || Js.falsy category || Js.falsy description
     || negb (bool_decide (is_Some (files req)))
  then next (mkHttpError "Fill in all fields and choose thumbnail." (Some 422))
  else if negb (isValidCategory category)
  then next (mkHttpError "Invalid category." (Some 422))
  else
    match files req ≫= thumbnail with
    | None => next (mkHttpError (TypeError_undefined "size") None)
    | Some thumbnail =>
        if (2000000 <? file_size thumbnail)%N
        then next (mkHttpError "Thumbnail too big. File should be less than 2mb."
                               (Some 422))
        else
          let fileName := file_name thumbnail in
          let splittedFilename := Js.split "." fileName in
          let fileExtension := List.last splittedFilename EmptyString in
          let newFilename := uuid e +:+ "." +:+ fileExtension in
          let* err := file_mv thumbnail newFilename in
          match err with
          | Some err => next (mkHttpError err None)
          | None =>
              let* newPost := Post_create e (str title) (str category)
                                (str description) newFilename (id (user req)) in
              let* currentUser := User_findById (id (user req)) in
              match currentUser with
              | None => emit (UnhandledRejection CastError_posts)
              | Some currentUser =>
                  let userPostCount := (user_posts currentUser + 1)%Z in
                  User_findByIdAndUpdate (id (user req)) (set_posts userPostCount) ;;
                  res_json 200 (JPost newPost)
              end
          end
    end.

(** The end of [editPost]: [if (!updatedPost) ...] and the response. *)
Definition editPost_finish (updatedPost : option PostDoc) : IO unit :=
  match updatedPost with
  | None => next (mkHttpError "Couldn't update post." (Some 400))
  | Some updatedPost => res_json 200 (JPost updatedPost)
  end.

(** PATCH /api/posts/:id *)
Definition editPost (e : Env) (req : Request) : IO unit :=
  let postId := params_id req in
  let '(mkBody title category description _ _ _) := body req in
  if Js.falsy title || Js.falsy category
  then next (mkHttpError "Fill in all fields." (Some 422))
  else
    match description with
    | None => next (mkHttpError (TypeError_undefined "length") None)
    | Some description =>
        if String.length description <? 12
        then next (mkHttpError "Fill in all fields." (Some 422))
        else if negb (isValidCategory category)
        then next (mkHttpError "Invalid category." (Some 422))
        else
          let* oldPost := Post_findById postId in
          match oldPost with
          | None => next (mkHttpError "Post not found." (Some 404))
          | Some oldPost =>
              if String.eqb (id (user req)) (post_creator oldPost) then
                match files req with
                | None =>
                    let* updatedPost :=
                      Post_findByIdAndUpdate e postId
                        (set_content (str title) (str category) description) in
                    editPost_finish updatedPost
                | Some files =>
                    let* err := fs_unlink (post_thumbnail oldPost) in
                    match err with
                    | Some err => console_log err
                    | None => ret tt
                    end ;;
                    match thumbnail files with
                    | None => next (mkHttpError (TypeError_undefined "size") None)
                    | Some thumbnail =>
                        if (2000000 <? file_size thumbnail)%N
                        then next (mkHttpError
                                     "Thumbnail too big. Should be less than 2mb." None)
                        else
                          let filename := file_name thumbnail in
                          let splittedFilename := Js.split "." filename in
                          let newFilename :=
                            List.hd EmptyString splittedFilename +:+ uuid e +:+ "."
                            +:+ List.last splittedFilename EmptyString in
                          let* err := file_mv thumbnail newFilename in
                          match err with
                          | Some err => next (mkHttpError err None)
                          | None => ret tt
                          end ;;
                          let* updatedPost :=
                            Post_findByIdAndUpdate e postId
                              (set_content_thumbnail (str title) (str category)
                                 description newFilename) in
                          editPost_finish updatedPost
                    end
                end
              else editPost_finish None
          end
    end.

(** DELETE /api/posts/:id *)
Definition deletePost (req : Request) : IO unit :=
  let postId := params_id req in
  let* post := Post_findById postId in
  match post with
  | None => next (mkHttpError "Post unavailable" (Some 404))
  | Some post =>
      if String.eqb (post_creator post) (id (user req)) then
        let fileName := post_thumbnail post in
        let* err := fs_unlink fileName in
        match err with
        | Some err => next (mkHttpError err None)
        | None =>
            Post_findByIdAndDelete postId ;;
            let* currentUser := User_findById (id (user req)) in
            match currentUser with
            | None => emit (UnhandledRejection CastError_posts)
            | Some currentUser =>
                let userPostCount := (user_posts currentUser - 1)%Z in
                User_findByIdAndUpdate (id (user req)) (set_posts userPostCount) ;;
                res_json 200 (JText ("Post " +:+ postId +:+ " deleted successfully"))
            end
        end
      else next (mkHttpError "You are not allowed to delete this post" (Some 401))
  end.

(** ** User controllers *)

(** POST /api/users/register *)
Definition registerUser (e : Env) (req : Request) : IO unit :=
  let '(mkBody _ _ _ fullname email password) := body req in
  if Js.falsy fullname || Js.falsy email || Js.falsy password
  then next (mkHttpError "Fill in all fields." (Some 422))
  else
    let newEmail := Js.toLowerCase (str email) in
    let* emailExists := User_findOne newEmail in
    if bool_decide (is_Some emailExists)
    then next (mkHttpError "Email already exists." (Some 422))
    else if String.length (Js.trim (str password)) <? 6
    then next (mkHttpError "Password must be at least 6 characters." (Some 422))
    else
      let hashedPassword := Bcrypt (salt e) (str password) in
      let* newUser := User_create (str fullname) newEmail hashedPassword in
      res_json 201 (JText ("New User " +:+ user_email newUser +:+ " registered.")).

(** POST /api/users/login.  The apostrophe of the second message is
    the ASCII one here. *)
Definition loginUser (req : Request) : IO unit :=
  let '(mkBody _ _ _ _ email password) := body req in
  if Js.falsy email || Js.falsy password
  then next (mkHttpError "Fill all the fields." (Some 422))
  else
    let newEmail := Js.toLowerCase (str email) in
    let* user := User_findOne newEmail in
    match user with
    | None =>
        next (mkHttpError
                "We couldn't find an account linked to this email address."
                (Some 422))
    | Some user =>
        let comparePass := bcrypt_compare (str password) (user_password user) in
        if negb comparePass
        then next (mkHttpError "The password you've entered is incorrect." (Some 401))
        else
          let token := mkToken (user_id user) (user_name user) "7d" in
          res_json 200 (JLogin token (user_id user) (user_name user) newEmail)
    end.

(** [next(err, extra)]: Express's [next] reads its first argument only. *)
Definition next_with (err : HttpError) (extra : nat) : IO unit := next err.

(** POST /api/users/change-avatar.  The callback handed to [fs.unlink]
    runs once the synchronous part of the handler is over. *)
Definition changeAvatar (e : Env) (req : Request) : IO unit :=
  let reqUser := user req in
  match files req with
  | None => next (mkHttpError (TypeError_undefined "avatar") None)
  | Some files =>
      match avatar files with
      | None => next (mkHttpError "Please choose an image." (Some 422))
      | Some avatar =>
          let* user := User_findById (id reqUser) in
          match user with
          | None => next (mkHttpError (TypeError_undefined "avatar") None)
          | Some user =>
              let* unlinked :=
                if negb (Js.falsy (user_avatar user))
                then fs_unlink (str (user_avatar user))
                else ret None in
              let unlink_callback :=
                match unlinked with
                | Some err => next (mkHttpError err None)
                | None => ret tt
                end in
              if (500000 <? file_size avatar)%N
              then
                next_with
                  (mkHttpError "Profile picture too big. Should be less than 500kb" None)
                  422 ;;
                unlink_callback
              else
                let fileName := file_name avatar in
                let splittedFilename := Js.split "." fileName in
                let fileExtension := List.last splittedFilename EmptyString in
                let newFilename := uuid e +:+ "." +:+ fileExtension in
                let* err := file_mv avatar newFilename in
                unlink_callback ;;
                match err with
                | Some err => next (mkHttpError err None)
                | None =>
                    let* updatedAvatar :=
                      User_findByIdAndUpdate (id reqUser) (set_avatar newFilename) in
                    match updatedAvatar with
                    | None => next (mkHttpError "Avatar couldn't be changed." (Some 422))
                    | Some u => res_json 200 (JAvatar (user_id u) (user_avatar u))
                    end
                end
          end
      end
  end.

(** ** Regular expressions

    [new RegExp(source, "i")] and the match of a [{ field: regex }]
    filter, for the part of the pattern language made of characters,
    [.], [^], [$], [|], groups, the quantifiers [*], [+], [?] and their
    lazy forms, and escaped syntax characters.  Character classes,
    counted repetition, group specifiers and the other escapes are
    recognised and reported as outside this fragment.  The match is the
    one of [RegExp.prototype.test]: a search for the pattern anywhere in
    the subject, which the anchors then tie to its ends. *)

Module RegExp.

Inductive regex :=
| Empty
| Char (c : ascii)
| Dot
| Bol
| Eol
| Seq (r1 r2 : regex)
| Alt (r1 r2 : regex)
| Star (r : regex)
| Group (r : regex).

Inductive compiled :=
| Parsed (r : regex)
| SyntaxError (msg : string)
| Unsupported.

(** What may follow a term: an atom takes a quantifier, a quantified
    atom takes only the [?] that makes it lazy. *)
Inductive kind := Atom | Assertion | Quantified | Lazy.

(** A disjunction being read: the alternatives already closed by [|]
    and the terms of the current one, both latest first. *)
Record frame := mkFrame {
  alts : list regex;
  terms : list (regex * kind)
}.

Definition no_frame : frame := mkFrame [] [].

Definition alternative (ts : list (regex * kind)) : regex :=
  fold_left (λ acc t, Seq (fst t) acc) ts Empty.

Definition disjunction (f : frame) : regex :=
  fold_left (λ acc a, Alt a acc) (alts f) (alternative (terms f)).

Definition push (f : frame) (r : regex) (k : kind) : frame :=
  mkFrame (alts f) ((r, k) :: terms f).

Definition bar (f : frame) : frame :=
  mkFrame (alternative (terms f) :: alts f) [].

Definition quantifier (c : ascii) (r : regex) : regex :=
  if Ascii.eqb c "*" then Star r
  else if Ascii.eqb c "+" then Seq r (Star r)
  else Alt r Empty.

Definition is_quantifier (c : ascii) : bool :=
  Ascii.eqb c "*" || Ascii.eqb c "+" || Ascii.eqb c "?".

(** The characters an identity escape may name. *)
Definition is_syntax (c : ascii) : bool :=
  existsb (Ascii.eqb c)
    ["^"; "$"; "\"; "."; "*"; "+"; "?"; "("; ")"; "["; "]"; "{"; "}"; "|"; "/"]%char.

Definition is_bracket (c : ascii) : bool :=
  existsb (Ascii.eqb c) ["["; "]"; "{"; "}"]%char.

Fixpoint parse (p : string) (stack : list frame) (top : frame) : compiled :=
  match p with
  | EmptyString =>
      match stack with
      | [] => Parsed (disjunction top)
      | _ :: _ => SyntaxError "Unterminated group"
      end
  | String c rest =>
      if Ascii.eqb c "(" then
        match rest with
        | String "?" _ => Unsupported
        | _ => parse rest (top :: stack) no_frame
        end
      else if Ascii.eqb c ")" then
        match stack with
        | [] => SyntaxError "Unmatched ')'"
        | parent :: stack' =>
            parse rest stack' (push parent (Group (disjunction top)) Atom)
        end
      else if Ascii.eqb c "|" then parse rest stack (bar top)
      else if is_quantifier c then
        match terms top with
        | (r, Atom) :: ts =>
            parse rest stack (mkFrame (alts top) ((quantifier c r, Quantified) :: ts))
        | (r, Quantified) :: ts =>
            if Ascii.eqb c "?"
            then parse rest stack (mkFrame (alts top) ((r, Lazy) :: ts))
            else SyntaxError "Nothing to repeat"
        | _ => SyntaxError "Nothing to repeat"
        end
      else if Ascii.eqb c "\" then
        match rest with
        | EmptyString => SyntaxError "\ at end of pattern"
        | String d rest' =>
            if is_syntax d then parse rest' stack (push top (Char d) Atom)
            else Unsupported
        end
      else if Ascii.eqb c "." then parse rest stack (push top Dot Atom)
      else if Ascii.eqb c "^" then parse rest stack (push top Bol Assertion)
      else if Ascii.eqb c "$" then parse rest stack (push top Eol Assertion)
      else if is_bracket c then Unsupported
      else parse rest stack (push top (Char c) Atom)
  end.

(** [new RegExp(source, flags)] *)
Definition compile (source : string) : compiled := parse source [] no_frame.

(** With the [i] flag two characters match when their upper-case forms
    are the same. *)
Definition canonicalize (ignoreCase : bool) (c : ascii) : ascii :=
  if ignoreCase then Js.upper_char c else c.

Definition is_line_terminator (c : ascii) : bool :=
  Ascii.eqb c "010" || Ascii.eqb c "013".

(** Backtracking match of [r] at position [i], where [s] is what is
    left of the subject, with continuation [k].  An iteration of a
    star has to consume a character, so the length of [s] bounds the
    number of iterations. *)
Fixpoint matches (ignoreCase : bool) (r : regex) (i : nat) (s : string)
    (k : nat → string → bool) : bool :=
  match r with
  | Empty => k i s
  | Char c =>
      match s with
      | String x t =>
          Ascii.eqb (canonicalize ignoreCase x) (canonicalize ignoreCase c)
          && k (S i) t
      | EmptyString => false
      end
  | Dot =>
      match s with
      | String x t => negb (is_line_terminator x) && k (S i) t
      | EmptyString => false
      end
  | Bol => (i =? 0) && k i s
  | Eol =>
      match s with
      | EmptyString => k i s
      | String _ _ => false
      end
  | Seq r1 r2 =>
      matches ignoreCase r1 i s (λ i' s', matches ignoreCase r2 i' s' k)
  | Alt r1 r2 => matches ignoreCase r1 i s k || matches ignoreCase r2 i s k
  | Star r1 =>
      (fix iterate (fuel : nat) (i : nat) (s : string) : bool :=
         k i s ||
         match fuel with
         | 0 => false
         | S fuel' =>
             matches ignoreCase r1 i s
               (λ i' s', (String.length s' <? String.length s) && iterate fuel' i' s')
         end) (String.length s) i s
  | Group r1 => matches ignoreCase r1 i s k
  end.

(** Is there a match starting at position [i] or later? *)
Fixpoint search (ignoreCase : bool) (r : regex) (i : nat) (s : string) : bool :=
  matches ignoreCase r i s (λ _ _, true) ||
  match s with
  | EmptyString => false
  | String _ t => search ignoreCase r (S i) t
  end.

(** [regex.test(subject)] *)
Definition test (ignoreCase : bool) (r : regex) (subject : string) : bool :=
  search ignoreCase r 0 subject.

End RegExp.

(** [.populate({ path: "creator", select: "name avatar" })] *)
Definition populate (ps : list PostDoc) : IO (list (PostDoc * option Creator)) :=
  λ w, ((λ p, (p, (λ u, mkCreator (user_id u) (user_name u) (user_avatar u))
                     <$> Users w !! post_creator p)) <$> ps, w, []).

(** GET /api/posts/categories/:category.  [None] when the pattern built
    from the parameter leaves the modelled fragment of [RegExp]. *)
Definition getCatPosts (req : Request) : option (IO unit) :=
  match RegExp.compile ("^" +:+ params_category req +:+ "$") with
  | RegExp.Unsupported => None
  | RegExp.SyntaxError _ => Some (next (mkHttpError "No Post Found" (Some 422)))
  | RegExp.Parsed regex =>
      Some (let* found :=
              Post_find_sorted (λ p, RegExp.test true regex (post_category p)) in
            let* posts := populate found in
            if length posts =? 0
            then next (mkHttpError "Database has empty post." (Some 404))
            else res_json 200 (JPosts posts))
  end.

(** ** Names given to stored files *)

(** The name under which [createPost] stores the thumbnail [f]
    (lines 32-35 of [postControllers.js]). *)
Definition createPost_filename (e : Env) (f : File) : string :=
  uuid e +:+ "." +:+ List.last (Js.split "." (file_name f)) EmptyString.

(** The name under which [editPost] stores the replacement thumbnail
    [f] (lines 210-216 of [postControllers.js]). *)
Definition editPost_filename (e : Env) (f : File) : string :=
  List.hd EmptyString (Js.split "." (file_name f)) +:+ uuid e +:+ "."
  +:+ List.last (Js.split "." (file_name f)) EmptyString.

(** The replacement name in the words of the specification: the unique
    id first, then the base name of the upload, then the extension. *)
Definition spec_prefixed_filename (e : Env) (f : File) : string :=
  uuid e +:+ List.hd EmptyString (Js.split "." (file_name f)) +:+ "."
  +:+ List.last (Js.split "." (file_name f)) EmptyString.

(** ** Vocabulary of the statements *)

(** Some user document carries the email [em]. *)
Definition registered (w : World) (em : string) : Prop :=
  ∃ i u, Users w !! i = Some u ∧ user_email u = em.

(** The document [registerUser] creates in [w]. *)
Definition registered_doc (e : Env) (w : World) (fn em pw : string) : UserDoc :=
  mkUser (fresh (dom (Users w))) fn (Js.toLowerCase em) (Bcrypt (salt e) pw) None 0.

(** The strings the specification calls equal under case-insensitive
    comparison, or equal up to letter case. *)
Definition equal_ignoring_case (a b : string) : Prop :=
  Js.toLowerCase a = Js.toLowerCase b.

Global Instance equal_ignoring_case_dec a b : Decision (equal_ignoring_case a b).
Proof. unfold equal_ignoring_case. apply _. Defined.

(** The listing in the words of the specification: the posts whose
    category equals [c] under case-insensitive comparison, most recently
    updated first. *)
Definition spec_listByCategory (c : string) (w : World) : list PostDoc :=
  merge_sort newer_first
    (List.filter (λ p, bool_decide (equal_ignoring_case c (post_category p)))
       (snd <$> map_to_list (Posts w))).

(** The reply of [getCatPosts] for the posts [found]. *)
Definition listing (w : World) (found : list PostDoc) : list Event :=
  if length found =? 0
  then [Next (mkHttpError "Database has empty post." (Some 404))]
  else [Respond 200 (JPosts (fst (fst (populate found w))))].

(** A string with no character of the pattern syntax. *)
Definition plain (c : string) : bool :=
  forallb (λ ch, negb (RegExp.is_syntax ch)) (list_ascii_of_string c).

(** The regular expression of a plain string followed by [tail]. *)
Fixpoint literal (c : string) (tail : RegExp.regex) : RegExp.regex :=
  match c with
  | EmptyString => tail
  | String ch t => RegExp.Seq (RegExp.Char ch) (literal t tail)
  end.

(** The terms [RegExp.parse] holds after reading the plain string [c]. *)
Definition pushed (c : string) (ts : list (RegExp.regex * RegExp.kind))
  : list (RegExp.regex * RegExp.kind) :=
  fold_left (λ acc ch, (RegExp.Char ch, RegExp.Atom) :: acc)
    (list_ascii_of_string c) ts.

(** Case-insensitive equality as the matcher decides it. *)
Fixpoint same_letters (c s : string) : bool :=
  match c, s with
  | EmptyString, EmptyString => true
  | String x c', String y s' =>
      Ascii.eqb (Js.upper_char y) (Js.upper_char x) && same_letters c' s'
  | _, _ => false
  end.

(** The status carried by the error of the first reply. *)
Definition error_status (t : list Event) : option nat :=
  match reply t with
  | Some (Next err) => code err
  | _ => None
  end.

(** ** A small blog

    One author, Ann, with two posts and their thumbnails on disk; Bob
    holds a valid token but owns nothing. *)

Module Blog.

Definition ann : UserDoc :=
  mkUser "u1" "Ann" "ann@example.org" (Bcrypt "salt0" "secret1") None 2.

Definition art_post : PostDoc :=
  mkPost "p1" "Painting" "Art" "<p>About painting</p>" "pic.png" "u1" 10 10.

Definition business_post : PostDoc :=
  mkPost "p2" "Markets" "Business" "<p>About markets</p>" "chart.png" "u1" 20 20.

Definition world : World :=
  mkWorld {["u1" := ann]}
          (<["p1" := art_post]> {["p2" := business_post]})
          {["pic.png"; "chart.png"]}.

Definition env : Env := mkEnv "1b9d6bcd" "salt1" 30.

Definition Ann : Identity := mkIdentity "u1" "Ann".
Definition Bob : Identity := mkIdentity "u2" "Bob".

Definition no_body : ReqBody := mkBody None None None None None None.

Definition post_body (t c d : string) : ReqBody :=
  mkBody (Some t) (Some c) (Some d) None None None.

Definition account_body (fn em pw : string) : ReqBody :=
  mkBody None None None (Some fn) (Some em) (Some pw).

Definition credentials (em pw : string) : ReqBody :=
  mkBody None None None None (Some em) (Some pw).

Definition upload_thumbnail (f : File) : option Files :=
  Some (mkFiles (Some f) None).

Definition upload_avatar (f : File) : option Files :=
  Some (mkFiles None (Some f)).

(** DELETE /api/posts/p1 *)
Definition delete_p1 (who : Identity) : Request :=
  mkRequest "p1" EmptyString no_body None who.

(** PATCH /api/posts/p1 *)
Definition edit_p1 (who : Identity) (fs : option Files) : Request :=
  mkRequest "p1" EmptyString
    (post_body "Sculpture" "Art" "<p>About sculpture</p>") fs who.

Definition small_file : File := mkFile "new.png" 1000.
Definition big_thumbnail : File := mkFile "huge.png" 2000001.
Definition big_avatar : File := mkFile "me.png" 500001.

(** POST /api/posts/create-post *)
Definition create_weather : Request :=
  mkRequest EmptyString EmptyString
    (post_body "Rain" "Weather" "<p>About rain</p>")
    (upload_thumbnail (mkFile "rain.photo.jpg" 2000000)) Ann.

(** POST /api/users/register *)
Definition register (fn em pw : string) : Request :=
  mkRequest EmptyString EmptyString (account_body fn em pw) None
    (mkIdentity EmptyString EmptyString).

(** POST /api/users/login *)
Definition login (em pw : string) : Request :=
  mkRequest EmptyString EmptyString (credentials em pw) None
    (mkIdentity EmptyString EmptyString).

(** POST /api/users/change-avatar *)
Definition change_avatar (f : File) : Request :=
  mkRequest EmptyString EmptyString no_body (upload_avatar f) Ann.

(** GET /api/posts/categories/:category *)
Definition by_category (c : string) : Request :=
  mkRequest EmptyString c no_body None (mkIdentity EmptyString EmptyString).

End Blog.

(** ** Handlers that answer with documents

    The remaining handlers reply once, at their end, with a document or
    a list of documents; their reply is the value of the computation:
    [Failed err] for [next(err)] and [Sent status body] for
    [res.status(status).json(body)].

    Three of them look a document up by [req.params.id].  The cast of
    that string to an ObjectId belongs to the store's driver; it is the
    parameter [castable] here, and a string it refuses makes the query
    throw into the [catch] of the handler. *)

Inductive Answer (A : Type) :=
| Failed (err : HttpError)
| Sent (status : nat) (body : A).

Arguments Failed {A} err.
Arguments Sent {A} status body.

(** A user document read with [.select("-password")]. *)
Record PublicUser := mkPublicUser {
  public_id : string;
  public_name : string;
  public_email : string;
  public_avatar : option string;
  public_posts : Z
}.

Definition without_password (u : UserDoc) : PublicUser :=
  mkPublicUser (user_id u) (user_name u) (user_email u) (user_avatar u)
               (user_posts u).

(** The creator attached by [getPosts]: [select: "_id name posts avatar"]. *)
Record Author := mkAuthor {
  author_id : string;
  author_name : string;
  author_posts : Z;
  author_avatar : option string
}.

Definition CastError_ObjectId (value : string) : string :=
  "CastError: Cast to ObjectId failed for value " +:+ value.

(** [.populate({ path: "creator", select: "_id name posts avatar" })] *)
Definition populate_authors (ps : list PostDoc) : IO (list (PostDoc * option Author)) :=
  λ w, ((λ p, (p, (λ u, mkAuthor (user_id u) (user_name u) (user_posts u)
                                 (user_avatar u))
                     <$> Users w !! post_creator p)) <$> ps, w, []).

(** GET /api/posts *)
Definition getPosts : IO (Answer (list (PostDoc * option Author))) :=
  let* found := Post_find_sorted (λ _, true) in
  let* posts := populate_authors found in
  if length posts =? 0
  then ret (Failed (mkHttpError "Database has empty post." (Some 404)))
  else ret (Sent 200 posts).

(** The fields of the creator kept by [select: "avatar name"]. *)
Definition creator_of (u : UserDoc) : Creator :=
  mkCreator (user_id u) (user_name u) (user_avatar u).

(** GET /api/posts/:id; [populate] looks the creator up by the reference
    the post holds. *)
Definition getPost (castable : string → bool) (req : Request)
  : IO (Answer (PostDoc * option Creator)) :=
  if negb (castable (params_id req))
  then ret (Failed (mkHttpError (CastError_ObjectId (params_id req)) None))
  else
    let* found := Post_findById (params_id req) in
    match found with
    | None => ret (Failed (mkHttpError "Post not found" (Some 404)))
    | Some post =>
        let* creator := User_findById (post_creator post) in
        ret (Sent 200 (post, creator_of <$> creator))
    end.

(** GET /api/posts/users/:id *)
Definition getUserPosts (castable : string → bool) (req : Request)
  : IO (Answer (list (PostDoc * option Creator))) :=
  if negb (castable (params_id req))
  then ret (Failed (mkHttpError "Post not found" (Some 404)))
  else
    let* found :=
      Post_find_sorted (λ p, String.eqb (post_creator p) (params_id req)) in
    let* posts := populate found in
    if length posts =? 0
    then ret (Failed (mkHttpError "Database has empty post." (Some 404)))
    else ret (Sent 200 posts).

(** GET /api/users/:id *)
Definition getUser (castable : string → bool) (req : Request)
  : IO (Answer PublicUser) :=
  if negb (castable (params_id req))
  then ret (Failed (mkHttpError (CastError_ObjectId (params_id req)) None))
  else
    let* found := User_findById (params_id req) in
    match found with
    | None => ret (Failed (mkHttpError "User not found." (Some 404)))
    | Some user => ret (Sent 200 (without_password user))
    end.

(** [User.find().select("-password")] *)
Definition User_find_public : IO (list PublicUser) :=
  λ w, (without_password <$> (snd <$> map_to_list (Users w)), w, []).

(** GET /api/users/authors *)
Definition getAuthors : IO (Answer (list PublicUser)) :=
  let* authors := User_find_public in
  if length authors =? 0
  then ret (Failed (mkHttpError "No authors have registered in the database."
                                (Some 404)))
  else ret (Sent 200 authors).

(** [req.body] of PATCH /api/users/edit-user; an absent field is [None]. *)
Record ProfileBody := mkProfileBody {
  profile_name : option string;
  profile_email : option string;
  currentPassword : option string;
  newPassword : option string;
  confirmNewPassword : option string
}.

Definition set_profile (name email : string) (password : Hash) (u : UserDoc) : UserDoc :=
  mkUser (user_id u) name email password (user_avatar u) (user_posts u).

(** PATCH /api/users/edit-user, for the caller [who] ([req.user]). *)
Definition editUser (e : Env) (who : Identity) (b : ProfileBody)
  : IO (Answer (option PublicUser)) :=
  let '(mkProfileBody name email currentPassword newPassword confirmNewPassword) := b in
  if Js.falsy name || Js.falsy email || Js.falsy currentPassword
     || Js.falsy newPassword
  then ret (Failed (mkHttpError "Fill in all fields." (Some 422)))
  else
    let* user := User_findById (id who) in
    match user with
    | None => ret (Failed (mkHttpError "User not found." (Some 403)))
    | Some user =>
        let* emailExists := User_findOne (str email) in
        if match emailExists with
           | Some other => negb (String.eqb (user_id other) (id who))
           | None => false
           end
        then ret (Failed (mkHttpError "Email already exists." (Some 422)))
        else
          let validateUserPassword :=
            bcrypt_compare (str currentPassword) (user_password user) in
          if negb validateUserPassword
          then ret (Failed (mkHttpError "Current password do not match." (Some 422)))
          else if negb (bool_decide (newPassword = confirmNewPassword))
          then ret (Failed (mkHttpError "New passwords do not match." (Some 422)))
          else if String.eqb (str currentPassword) (str newPassword)
          then ret (Failed (mkHttpError
                 "New password must be different from the current password."
                 (Some 422)))
          else
            let hashedPassword := Bcrypt (salt e) (str newPassword) in
            let* newInfo :=
              User_findByIdAndUpdate (id who)
                (set_profile (str name) (str email) hashedPassword) in
            ret (Sent 200 (without_password <$> newInfo))
    end.

(** The documents an answer carries; none when it is an error. *)
Definition listed {A} (a : Answer (list A)) : list A :=
  match a with
  | Sent _ l => l
  | Failed _ => []
  end.

(** ** Invariants of the store *)

(** The number of posts whose creator is [uid]. *)
Definition posts_by (posts : gmap string PostDoc) (uid : string) : nat :=
  length (List.filter (λ p, String.eqb (post_creator p) uid)
            (snd <$> map_to_list posts)).

(** Every user's posts counter is the number of that user's posts. *)
Definition counters_consistent (w : World) : Prop :=
  ∀ i u, Users w !! i = Some u → user_posts u = Z.of_nat (posts_by (Posts w) i).

(** User documents sit under their own id and no two share an email. *)
Definition emails_unique (w : World) : Prop :=
  (∀ i u, Users w !! i = Some u → user_id u = i)
  ∧ (∀ i j u v, Users w !! i = Some u → Users w !! j = Some v →
               user_email u = user_email v → i = j).

(** In the small blog every string stands for a well-formed id. *)
Definition any_id (s : string) : bool := true.

(** ** A second user

    The small blog once Bob has an account and an avatar, and the
    profile edits Ann sends. *)

Module Town.

Definition bob : UserDoc :=
  mkUser "u2" "Bob" "bob@example.org" (Bcrypt "salt2" "secret2") (Some "bob.png") 0.

Definition world : World :=
  mkWorld (<["u1" := Blog.ann]> {["u2" := bob]})
          (Posts Blog.world)
          ({["bob.png"]} ∪ uploads Blog.world).

(** PATCH /api/users/edit-user: a new name, email and password. *)
Definition profile (em : string) : ProfileBody :=
  mkProfileBody (Some "Ann B") (Some em) (Some "secret1") (Some "secret9")
                (Some "secret9").

(** The same edit with the confirmation mistyped. *)
Definition unconfirmed : ProfileBody :=
  mkProfileBody (Some "Ann B") (Some "ann.b@example.org") (Some "secret1")
                (Some "secret9") (Some "secret8").

(** GET /api/posts/:id, GET /api/users/:id, GET /api/posts/users/:id *)
Definition by_id (i : string) : Request :=
  mkRequest i EmptyString Blog.no_body None (mkIdentity EmptyString EmptyString).

End Town.

(** ** Letter case in the words of the specification

    Lower case and equality up to letter case for ASCII strings, written
    from the alphabet and not from [Js.toLowerCase]. *)

Definition capitals : list ascii :=
  list_ascii_of_string "ABCDEFGHIJKLMNOPQRSTUVWXYZ".

Definition smalls : list ascii :=
  list_ascii_of_string "abcdefghijklmnopqrstuvwxyz".

(** Each capital with its small letter. *)
Definition letters : list (ascii * ascii) := combine capitals smalls.

Definition is_capital (c : ascii) : bool := existsb (Ascii.eqb c) capitals.

(** The same character, or the two cases of one letter. *)
Definition same_letter (x y : ascii) : bool :=
  Ascii.eqb x y
  || existsb (λ p, (Ascii.eqb x (fst p) && Ascii.eqb y (snd p))
                   || (Ascii.eqb x (snd p) && Ascii.eqb y (fst p))) letters.

(** Equal up to letter case: the same length and, position by position,
    the same letter. *)
Fixpoint same_up_to_case (a b : string) : bool :=
  match a, b with
  | EmptyString, EmptyString => true
  | String x a', String y b' => same_letter x y && same_up_to_case a' b'
  | _, _ => false
  end.

(** In lower case: no capital letter. *)
Definition lower_case (s : string) : bool :=
  forallb (λ c, negb (is_capital c)) (list_ascii_of_string s).

(** Made of ASCII characters only. *)
Definition ascii_only (s : string) : bool :=
  forallb (λ c, nat_of_ascii c <? 128) (list_ascii_of_string s).

(** * Properties *)

Ltac io_unfold :=
  unfold run, bind, ret, emit, next, next_with, res_json, console_log,
    Post_findById, Post_create, Post_findByIdAndUpdate, Post_findByIdAndDelete,
    User_findById, User_create, User_findByIdAndUpdate, fs_unlink, file_mv.

(** ** Strings, sets and validation *)

Lemma falsy_Some (s : string) : s ≠ EmptyString → Js.falsy (Some s) = false.
Proof. intros H. simpl. by apply String.eqb_neq. Qed.

Lemma isValidCategory_In (c : string) :
  In c categories → isValidCategory (Some c) = true.
Proof.
  intros H. unfold isValidCategory. apply existsb_exists.
  exists c. split; [done | apply String.eqb_refl].
Qed.

Lemma category_nonempty (c : string) : In c categories → c ≠ EmptyString.
Proof. intros H ->. cbn in H. intuition discriminate. Qed.

Lemma eqb_neq_sym (a b : string) : a ≠ b → String.eqb b a = false.
Proof. intros H. apply String.eqb_neq. congruence. Qed.

Lemma toLowerCase_eq_nonempty (s s' : string) :
  Js.toLowerCase s = Js.toLowerCase s' → s ≠ EmptyString → s' ≠ EmptyString.
Proof. intros Heq Hs ->. by destruct s. Qed.

Lemma trimmed_nonempty (s : string) (n : nat) :
  S n ≤ String.length (Js.trim s) → s ≠ EmptyString.
Proof. intros Hlen ->. cbn in Hlen. lia. Qed.

Lemma in_added (x : string) (s : gset string) : x ∈ {[x]} ∪ s.
Proof. apply elem_of_union_l, elem_of_singleton. reflexivity. Qed.

Lemma not_in_removed (x : string) (s : gset string) : x ∉ s ∖ {[x]}.
Proof. intros [_ H]%elem_of_difference. apply H, elem_of_singleton. reflexivity. Qed.

Lemma removed_absent (x : string) (s : gset string) : x ∉ s → s ∖ {[x]} = s.
Proof.
  intros H. apply set_eq. intros y.
  rewrite elem_of_difference, elem_of_singleton.
  split; [tauto | intros Hy; split; [done | congruence]].
Qed.

(** The documents of a collection are the values of its map. *)
Lemma In_documents {A} (m : gmap string A) (x : A) :
  In x (snd <$> map_to_list m) ↔ ∃ i, m !! i = Some x.
Proof.
  rewrite <- list_elem_of_In, list_elem_of_fmap. split.
  - intros [[i y] [-> H]]. exists i. by apply elem_of_map_to_list.
  - intros [i H]. exists (i, x). split; [done | by apply elem_of_map_to_list].
Qed.

(** ** deletePost *)

(** C1, as amended.  For every post whose creator is the caller and
    whose thumbnail file is in the uploads folder, [deletePost] removes
    the thumbnail file, then deletes the post document, then writes the
    creator's posts counter decreased by exactly 1, and answers 200 with
    a message naming the post id; nothing else changes. *)
Theorem deletePost_owner (req : Request) (w : World) (post : PostDoc) (u : UserDoc) :
  Posts w !! params_id req = Some post →
  post_creator post = id (user req) →
  post_thumbnail post ∈ uploads w →
  Users w !! id (user req) = Some u →
  let w' := mkWorld (<[id (user req) := set_posts (user_posts u - 1) u]> (Users w))
                    (delete (params_id req) (Posts w))
                    (uploads w ∖ {[post_thumbnail post]}) in
  run (deletePost req) w =
    (w', [FsUnlink (post_thumbnail post) None;
          PostDeleted (params_id req);
          UserUpdated (id (user req));
          Respond 200 (JText ("Post " +:+ params_id req +:+ " deleted successfully"))])
  ∧ (post_thumbnail post ∉ uploads w')
  ∧ Posts w' !! params_id req = None
  ∧ user_posts <$> (Users w' !! id (user req)) = Some (user_posts u - 1)%Z.
Proof.
  intros Hpost Hown Hfile Huser w'. repeat split.
  - unfold run, deletePost, bind, Post_findById.
    rewrite Hpost, Hown, String.eqb_refl.
    unfold fs_unlink. rewrite (bool_decide_eq_true_2 _ Hfile).
    unfold Post_findByIdAndDelete, User_findById, User_findByIdAndUpdate.
    repeat (progress (cbn; rewrite ?Hpost, ?Huser)). reflexivity.
  - apply not_in_removed.
  - apply lookup_delete_eq.
  - cbn. by rewrite lookup_insert_eq.
Qed.

Lemma deletePost_owner_witness :
  run (deletePost (Blog.delete_p1 Blog.Ann)) Blog.world =
    (mkWorld (<["u1" := set_posts 1 Blog.ann]> (Users Blog.world))
             (delete "p1" (Posts Blog.world))
             (uploads Blog.world ∖ {["pic.png"]}),
     [FsUnlink "pic.png" None; PostDeleted "p1"; UserUpdated "u1";
      Respond 200 (JText "Post p1 deleted successfully")]).
Proof.
  apply (deletePost_owner (Blog.delete_p1 Blog.Ann) Blog.world Blog.art_post Blog.ann).
  - vm_compute. reflexivity.
  - reflexivity.
  - vm_compute. reflexivity.
  - vm_compute. reflexivity.
Defined.

(** C1, as stated, fails where the thumbnail of the post is no longer on
    disk.  Ann replaces the thumbnail of her post by a file that is too
    big: the edit is refused after the old file was removed.  Her
    [deletePost] then reports the failed unlink; the post stays, her
    counter keeps its value and no confirmation is sent. *)
Lemma deletePost_owner_thumbnail_missing :
  let w := fst (run (editPost Blog.env
                       (Blog.edit_p1 Blog.Ann (Blog.upload_thumbnail Blog.big_thumbnail)))
                  Blog.world) in
  Posts w !! "p1" = Some Blog.art_post
  ∧ post_creator Blog.art_post = id Blog.Ann
  ∧ run (deletePost (Blog.delete_p1 Blog.Ann)) w =
      (w, [FsUnlink "pic.png" (Some (ENOENT "pic.png"));
           Next (mkHttpError (ENOENT "pic.png") None)])
  ∧ user_posts <$> (Users w !! "u1") = Some 2%Z.
Proof. vm_compute. split; [| split; [| split]]; reflexivity. Qed.

(** C3.  For every existing post and every caller who is not its
    creator, [deletePost] answers with the 401 error and leaves the post
    documents, the uploads folder and the user documents as they were. *)
Theorem deletePost_non_owner (req : Request) (w : World) (post : PostDoc) :
  Posts w !! params_id req = Some post →
  id (user req) ≠ post_creator post →
  run (deletePost req) w =
    (w, [Next (mkHttpError "You are not allowed to delete this post" (Some 401))]).
Proof.
  intros Hpost Hne.
  unfold run, deletePost, bind, Post_findById.
  rewrite Hpost. rewrite (eqb_neq_sym _ _ Hne). reflexivity.
Qed.

Lemma deletePost_non_owner_witness :
  run (deletePost (Blog.delete_p1 Blog.Bob)) Blog.world =
    (Blog.world,
     [Next (mkHttpError "You are not allowed to delete this post" (Some 401))]).
Proof.
  apply (deletePost_non_owner (Blog.delete_p1 Blog.Bob) Blog.world Blog.art_post).
  - vm_compute. reflexivity.
  - vm_compute. discriminate.
Defined.

(** ** createPost *)

(** C2.  For every caller with a user document who supplies a title, a
    category of the closed set, a description and a thumbnail of at most
    2,000,000 bytes, [createPost] stores the file, creates a post under
    an id not in use whose creator is the caller, writes the caller's
    posts counter increased by exactly 1 and answers 200 with the
    created post. *)
Theorem createPost_ok (e : Env) (req : Request) (w : World)
    (t c d : string) (fs : Files) (f : File) (u : UserDoc) :
  title (body req) = Some t → t ≠ EmptyString →
  category (body req) = Some c → In c categories →
  description (body req) = Some d → d ≠ EmptyString →
  files req = Some fs → thumbnail fs = Some f →
  (file_size f ≤ 2000000)%N →
  Users w !! id (user req) = Some u →
  let newPost :=
    mkPost (fresh (dom (Posts w))) t c d (createPost_filename e f)
           (id (user req)) (now e) (now e) in
  let w' := mkWorld (<[id (user req) := set_posts (user_posts u + 1) u]> (Users w))
                    (<[post_id newPost := newPost]> (Posts w))
                    ({[createPost_filename e f]} ∪ uploads w) in
  run (createPost e req) w =
    (w', [FileMv (createPost_filename e f); PostCreated newPost;
          UserUpdated (id (user req)); Respond 200 (JPost newPost)])
  ∧ post_creator newPost = id (user req)
  ∧ Posts w !! post_id newPost = None
  ∧ Posts w' !! post_id newPost = Some newPost
  ∧ user_posts <$> (Users w' !! id (user req)) = Some (user_posts u + 1)%Z.
Proof.
  intros Ht Hne Hc Hin Hd Hdne Hfs Hf Hsize Hu newPost w'.
  split; [| split; [reflexivity | split; [| split]]].
  - unfold createPost. destruct (body req) as [t' c' d' fn em pw].
    cbn in Ht, Hc, Hd. subst t' c' d'.
    rewrite (falsy_Some t), (falsy_Some d), isValidCategory_In by assumption.
    rewrite (falsy_Some c) by (by apply category_nonempty).
    rewrite Hfs. cbn. rewrite Hf.
    apply N.ltb_ge in Hsize. rewrite Hsize.
    io_unfold. repeat (progress (cbn; rewrite ?Hu)). reflexivity.
  - apply not_elem_of_dom, is_fresh.
  - apply lookup_insert_eq.
  - cbn. by rewrite lookup_insert_eq.
Qed.

Lemma createPost_ok_witness :
  let newPost := mkPost (fresh (dom (Posts Blog.world))) "Rain" "Weather"
                        "<p>About rain</p>" "1b9d6bcd.jpg" "u1" 30 30 in
  run (createPost Blog.env Blog.create_weather) Blog.world =
    (mkWorld (<["u1" := set_posts 3 Blog.ann]> (Users Blog.world))
             (<[post_id newPost := newPost]> (Posts Blog.world))
             ({["1b9d6bcd.jpg"]} ∪ uploads Blog.world),
     [FileMv "1b9d6bcd.jpg"; PostCreated newPost; UserUpdated "u1";
      Respond 200 (JPost newPost)]).
Proof.
  apply (createPost_ok Blog.env Blog.create_weather Blog.world
           "Rain" "Weather" "<p>About rain</p>"
           (mkFiles (Some (mkFile "rain.photo.jpg" 2000000)) None)
           (mkFile "rain.photo.jpg" 2000000) Blog.ann).
  - reflexivity.
  - discriminate.
  - reflexivity.
  - simpl. tauto.
  - reflexivity.
  - discriminate.
  - reflexivity.
  - reflexivity.
  - vm_compute. discriminate.
  - vm_compute. reflexivity.
Defined.

(** ** editPost *)

Section EditPost.
Variables (e : Env) (req : Request) (w : World).
Variables (t c d : string) (post : PostDoc).
Hypothesis Htitle : title (body req) = Some t.
Hypothesis Ht : t ≠ EmptyString.
Hypothesis Hcategory : category (body req) = Some c.
Hypothesis Hc : In c categories.
Hypothesis Hdescription : description (body req) = Some d.
Hypothesis Hd : 12 ≤ String.length d.
Hypothesis Hpost : Posts w !! params_id req = Some post.

(** Past the validation of the body, [editPost] is the lookup of the
    post and the ownership branch. *)
Lemma editPost_validated :
  editPost e req =
    (let* oldPost := Post_findById (params_id req) in
     match oldPost with
     | None => next (mkHttpError "Post not found." (Some 404))
     | Some oldPost =>
         if String.eqb (id (user req)) (post_creator oldPost) then
           match files req with
           | None =>
               let* updatedPost :=
                 Post_findByIdAndUpdate e (params_id req) (set_content t c d) in
               editPost_finish updatedPost
           | Some files =>
               let* err := fs_unlink (post_thumbnail oldPost) in
               match err with
               | Some err => console_log err
               | None => ret tt
               end ;;
               match thumbnail files with
               | None => next (mkHttpError (TypeError_undefined "size") None)
               | Some thumbnail =>
                   if (2000000 <? file_size thumbnail)%N
                   then next (mkHttpError
                                "Thumbnail too big. Should be less than 2mb." None)
                   else
                     let newFilename := editPost_filename e thumbnail in
                     let* err := file_mv thumbnail newFilename in
                     match err with
                     | Some err => next (mkHttpError err None)
                     | None => ret tt
                     end ;;
                     let* updatedPost :=
                       Post_findByIdAndUpdate e (params_id req)
                         (set_content_thumbnail t c d newFilename) in
                     editPost_finish updatedPost
               end
           end
         else editPost_finish None
     end).
Proof.
  unfold editPost. destruct (body req) as [t' c' d' fn em pw].
  cbn in Htitle, Hcategory, Hdescription. subst t' c' d'.
  rewrite (falsy_Some t), isValidCategory_In by assumption.
  rewrite (falsy_Some c) by (by apply category_nonempty).
  apply Nat.ltb_ge in Hd. cbn [orb negb]. rewrite Hd.
  reflexivity.
Qed.

(** C4.  For every existing post and every caller who is not its
    creator, an [editPost] with a valid title, category and
    description changes nothing, neither documents nor files, and
    answers with the 400 error "Couldn't update post.". *)
Theorem editPost_non_owner :
  id (user req) ≠ post_creator post →
  run (editPost e req) w =
    (w, [Next (mkHttpError "Couldn't update post." (Some 400))]).
Proof.
  intros Hne. rewrite editPost_validated.
  io_unfold. rewrite Hpost. apply String.eqb_neq in Hne. rewrite Hne.
  reflexivity.
Qed.

(** C9, as amended.  For every edit by the creator that supplies a
    thumbnail of at most 2,000,000 bytes, the replacement is stored
    under the first dot-separated piece of the uploaded name, then the
    generated unique id, then a dot and the last piece: the post
    document refers to that name, the uploads folder holds it and the
    answer carries the updated post. *)
Theorem editPost_replacement_filename (fs : Files) (f : File) :
  id (user req) = post_creator post →
  files req = Some fs → thumbnail fs = Some f →
  (file_size f ≤ 2000000)%N →
  let w' := fst (run (editPost e req) w) in
  editPost_filename e f =
    List.hd EmptyString (Js.split "." (file_name f)) +:+ uuid e +:+ "."
    +:+ List.last (Js.split "." (file_name f)) EmptyString
  ∧ post_thumbnail <$> (Posts w' !! params_id req) = Some (editPost_filename e f)
  ∧ editPost_filename e f ∈ uploads w'
  ∧ reply (snd (run (editPost e req) w)) =
      Some (Respond 200
              (JPost (mkPost (post_id post) t c d (editPost_filename e f)
                        (post_creator post) (post_createdAt post) (now e)))).
Proof.
  intros Hown Hfs Hf Hsize. rewrite editPost_validated.
  apply N.ltb_ge in Hsize.
  io_unfold. rewrite Hpost, Hown, String.eqb_refl, Hfs.
  destruct (bool_decide (post_thumbnail post ∈ uploads w));
    repeat (progress (cbn; rewrite ?Hf, ?Hsize, ?Hpost));
    rewrite lookup_insert_eq;
    (split; [done | split; [done | split; [apply in_added | done]]]).
Qed.

(** C10.  For every edit by the creator, with a valid title, category
    and description, whose new thumbnail exceeds 2,000,000 bytes: the
    unlink of the old thumbnail is the first effect, the request is
    answered with the "too big" error, no document is written, and
    afterwards the post still refers to the old thumbnail, which is no
    longer in the uploads folder. *)
Theorem editPost_oversized_thumbnail (fs : Files) (f : File) :
  id (user req) = post_creator post →
  files req = Some fs → thumbnail fs = Some f →
  (2000000 < file_size f)%N →
  let '(w', tr) := run (editPost e req) w in
  (∃ err rest, tr = FsUnlink (post_thumbnail post) err :: rest)
  ∧ reply tr =
      Some (Next (mkHttpError "Thumbnail too big. Should be less than 2mb." None))
  ∧ Posts w' = Posts w
  ∧ Users w' = Users w
  ∧ uploads w' = uploads w ∖ {[post_thumbnail post]}
  ∧ Posts w' !! params_id req = Some post
  ∧ post_thumbnail post ∉ uploads w'.
Proof.
  intros Hown Hfs Hf Hsize. rewrite editPost_validated.
  apply N.ltb_lt in Hsize.
  io_unfold. rewrite Hpost, Hown, String.eqb_refl, Hfs.
  destruct (bool_decide (post_thumbnail post ∈ uploads w)) eqn:Hin;
    repeat (progress (cbn; rewrite ?Hf, ?Hsize, ?Hpost)).
  - split; [eexists _, _; reflexivity |].
    repeat split; eauto using not_in_removed.
  - apply bool_decide_eq_false in Hin. rewrite (removed_absent _ _ Hin).
    split; [eexists _, _; reflexivity |]. repeat split; eauto.
Qed.
End EditPost.

Lemma editPost_non_owner_witness :
  run (editPost Blog.env (Blog.edit_p1 Blog.Bob None)) Blog.world =
    (Blog.world, [Next (mkHttpError "Couldn't update post." (Some 400))]).
Proof.
  apply (editPost_non_owner Blog.env (Blog.edit_p1 Blog.Bob None) Blog.world
           "Sculpture" "Art" "<p>About sculpture</p>" Blog.art_post).
  - reflexivity.
  - discriminate.
  - reflexivity.
  - simpl. tauto.
  - reflexivity.
  - simpl. lia.
  - vm_compute. reflexivity.
  - vm_compute. discriminate.
Defined.

Lemma editPost_replacement_filename_witness :
  let w' := fst (run (editPost Blog.env
                        (Blog.edit_p1 Blog.Ann (Blog.upload_thumbnail Blog.small_file)))
                   Blog.world) in
  post_thumbnail <$> (Posts w' !! "p1") = Some "new1b9d6bcd.png"
  ∧ "new1b9d6bcd.png" ∈ uploads w'.
Proof.
  pose proof (editPost_replacement_filename Blog.env
                (Blog.edit_p1 Blog.Ann (Blog.upload_thumbnail Blog.small_file))
                Blog.world "Sculpture" "Art" "<p>About sculpture</p>" Blog.art_post
                eq_refl ltac:(discriminate) eq_refl ltac:(simpl; tauto) eq_refl
                ltac:(simpl; lia) ltac:(vm_compute; reflexivity)
                (mkFiles (Some Blog.small_file) None) Blog.small_file
                eq_refl eq_refl eq_refl ltac:(vm_compute; discriminate))
    as (_ & Hdoc & Hfile & _).
  split; [exact Hdoc | exact Hfile].
Defined.

(** C9, as stated, fails: Ann replaces the thumbnail of her post by
    [new.png] while [uuid()] yields [1b9d6bcd]; the post then refers to
    [new1b9d6bcd.png], the unique id after the base name, and not to
    [1b9d6bcdnew.png], the name the specification describes. *)
Lemma editPost_filename_not_prefixed :
  let req := Blog.edit_p1 Blog.Ann (Blog.upload_thumbnail Blog.small_file) in
  let w' := fst (run (editPost Blog.env req) Blog.world) in
  post_thumbnail <$> (Posts w' !! "p1") = Some "new1b9d6bcd.png"
  ∧ spec_prefixed_filename Blog.env Blog.small_file = "1b9d6bcdnew.png"
  ∧ post_thumbnail <$> (Posts w' !! "p1")
    ≠ Some (spec_prefixed_filename Blog.env Blog.small_file).
Proof. vm_compute. split; [reflexivity | split; [reflexivity | discriminate]]. Qed.

Lemma editPost_oversized_thumbnail_witness :
  let '(w', tr) :=
    run (editPost Blog.env
           (Blog.edit_p1 Blog.Ann (Blog.upload_thumbnail Blog.big_thumbnail)))
        Blog.world in
  (∃ err rest, tr = FsUnlink "pic.png" err :: rest)
  ∧ reply tr =
      Some (Next (mkHttpError "Thumbnail too big. Should be less than 2mb." None))
  ∧ Posts w' = Posts Blog.world
  ∧ Users w' = Users Blog.world
  ∧ uploads w' = uploads Blog.world ∖ {["pic.png"]}
  ∧ Posts w' !! "p1" = Some Blog.art_post
  ∧ "pic.png" ∉ uploads w'.
Proof.
  apply (editPost_oversized_thumbnail Blog.env
           (Blog.edit_p1 Blog.Ann (Blog.upload_thumbnail Blog.big_thumbnail))
           Blog.world "Sculpture" "Art" "<p>About sculpture</p>" Blog.art_post
           eq_refl ltac:(discriminate) eq_refl ltac:(simpl; tauto) eq_refl
           ltac:(simpl; lia) ltac:(vm_compute; reflexivity)
           (mkFiles (Some Blog.big_thumbnail) None) Blog.big_thumbnail).
  - reflexivity.
  - reflexivity.
  - reflexivity.
  - vm_compute. reflexivity.
Defined.

(** ** The user collection searched by email *)

Lemma find_email_spec (w : World) (em : string) :
  match List.find (λ u, String.eqb (user_email u) em)
          (snd <$> map_to_list (Users w)) with
  | Some _ => registered w em
  | None => ¬ registered w em
  end.
Proof.
  destruct (List.find _ _) as [u|] eqn:Hfind.
  - apply find_some in Hfind as [Hin Heq].
    apply In_documents in Hin as [i Hi]. apply String.eqb_eq in Heq. by exists i, u.
  - intros (i & u & Hi & Hem).
    assert (Hin : In u (snd <$> map_to_list (Users w))).
    { apply In_documents. by exists i. }
    apply (find_none _ _ Hfind) in Hin. cbn in Hin. subst em.
    by rewrite String.eqb_refl in Hin.
Qed.

Lemma registered_dec (w : World) (em : string) :
  {registered w em} + {¬ registered w em}.
Proof.
  pose proof (find_email_spec w em) as H.
  destruct (List.find _ _); [by left | by right].
Qed.

Lemma User_findOne_None (w : World) (em : string) :
  ¬ registered w em ↔ User_findOne em w = (None, w, []).
Proof.
  pose proof (find_email_spec w em) as H. unfold User_findOne.
  destruct (List.find _ _); split; done.
Qed.

Lemma User_findOne_Some (w : World) (em : string) :
  registered w em → ∃ u, User_findOne em w = (Some u, w, []).
Proof.
  intros Hreg. pose proof (find_email_spec w em) as H. unfold User_findOne.
  destruct (List.find _ _) as [u|]; [by exists u | done].
Qed.

(** ** loginUser *)

(** C5, as amended.  For every email with no user stored under its
    lower-case form, [loginUser] changes nothing and answers with an
    error carrying status 422; when email and password are both
    supplied the message is the one about the missing account. *)
Theorem loginUser_unknown_email (req : Request) (w : World) :
  ¬ registered w (Js.toLowerCase (str (email (body req)))) →
  ∃ msg,
    run (loginUser req) w = (w, [Next (mkHttpError msg (Some 422))])
    ∧ (Js.falsy (email (body req)) = false →
       Js.falsy (password (body req)) = false →
       msg = "We couldn't find an account linked to this email address.").
Proof.
  intros Hnone. unfold loginUser.
  destruct (body req) as [t c d fn em pw]. cbn [email password] in *.
  destruct (Js.falsy em) eqn:Hem; [eexists; split; [reflexivity | done] |].
  destruct (Js.falsy pw) eqn:Hpw; [eexists; split; [reflexivity | done] |].
  cbn [orb]. unfold run, bind.
  apply User_findOne_None in Hnone. rewrite Hnone.
  eexists. split; reflexivity.
Qed.

Lemma loginUser_unknown_email_witness :
  ∃ msg,
    run (loginUser (Blog.login "Bob@Example.org" "secret2")) Blog.world =
      (Blog.world, [Next (mkHttpError msg (Some 422))])
    ∧ (Js.falsy (Some "Bob@Example.org") = false →
       Js.falsy (Some "secret2") = false →
       msg = "We couldn't find an account linked to this email address.").
Proof.
  apply (loginUser_unknown_email (Blog.login "Bob@Example.org" "secret2") Blog.world).
  apply User_findOne_None. vm_compute. reflexivity.
Defined.

(** C5, as stated, fails: nobody is registered under [bob@example.org],
    and the login with [Bob@Example.org] is answered with status 422,
    not 404. *)
Lemma loginUser_unknown_email_not_404 :
  ¬ registered Blog.world (Js.toLowerCase "Bob@Example.org")
  ∧ error_status (snd (run (loginUser (Blog.login "Bob@Example.org" "secret2"))
                         Blog.world)) = Some 422
  ∧ error_status (snd (run (loginUser (Blog.login "Bob@Example.org" "secret2"))
                         Blog.world)) ≠ Some 404.
Proof.
  split; [| split].
  - apply User_findOne_None. vm_compute. reflexivity.
  - vm_compute. reflexivity.
  - vm_compute. discriminate.
Qed.

(** ** registerUser *)

(** What [registerUser] does once its three fields are present. *)
Lemma registerUser_fields (e : Env) (req : Request) (fn em pw : string) :
  fullname (body req) = Some fn → fn ≠ EmptyString →
  email (body req) = Some em → em ≠ EmptyString →
  password (body req) = Some pw → pw ≠ EmptyString →
  registerUser e req =
    (let* emailExists := User_findOne (Js.toLowerCase em) in
     if bool_decide (is_Some emailExists)
     then next (mkHttpError "Email already exists." (Some 422))
     else if String.length (Js.trim pw) <? 6
     then next (mkHttpError "Password must be at least 6 characters." (Some 422))
     else
       let* newUser :=
         User_create fn (Js.toLowerCase em) (Bcrypt (salt e) pw) in
       res_json 201 (JText ("New User " +:+ user_email newUser +:+ " registered."))).
Proof.
  intros Hfn Hfn' Hem Hem' Hpw Hpw'. unfold registerUser.
  destruct (body req) as [t c d fn0 em0 pw0]. cbn in Hfn, Hem, Hpw. subst.
  by rewrite !falsy_Some.
Qed.

(** An email already stored in lower case is refused, whatever the
    password, and nothing is written. *)
Lemma registerUser_conflict (e : Env) (req : Request) (w : World) (fn em pw : string) :
  fullname (body req) = Some fn → fn ≠ EmptyString →
  email (body req) = Some em → em ≠ EmptyString →
  password (body req) = Some pw → pw ≠ EmptyString →
  registered w (Js.toLowerCase em) →
  run (registerUser e req) w =
    (w, [Next (mkHttpError "Email already exists." (Some 422))]).
Proof.
  intros Hfn Hfn' Hem Hem' Hpw Hpw' Hreg.
  rewrite (registerUser_fields e req fn em pw) by assumption.
  destruct (User_findOne_Some _ _ Hreg) as [u Hu].
  unfold run, bind. rewrite Hu. reflexivity.
Qed.

(** A new email is stored in lower case. *)
Lemma registerUser_created (e : Env) (req : Request) (w : World) (fn em pw : string) :
  fullname (body req) = Some fn → fn ≠ EmptyString →
  email (body req) = Some em → em ≠ EmptyString →
  password (body req) = Some pw → 6 ≤ String.length (Js.trim pw) →
  ¬ registered w (Js.toLowerCase em) →
  let doc := registered_doc e w fn em pw in
  run (registerUser e req) w =
    (mkWorld (<[user_id doc := doc]> (Users w)) (Posts w) (uploads w),
     [UserCreated doc;
      Respond 201 (JText ("New User " +:+ Js.toLowerCase em +:+ " registered."))]).
Proof.
  intros Hfn Hfn' Hem Hem' Hpw Hlen Hnone doc.
  assert (pw ≠ EmptyString) by eauto using trimmed_nonempty.
  rewrite (registerUser_fields e req fn em pw) by assumption.
  unfold run, bind. apply User_findOne_None in Hnone. rewrite Hnone.
  apply Nat.ltb_ge in Hlen. cbv beta iota zeta. rewrite Hlen. reflexivity.
Qed.

(** [Js.toLowerCase] against the alphabet: its result has no capital, it
    is equal to its argument up to letter case, and it sends strings
    equal up to letter case to the same string. *)
Lemma lower_char_not_capital (x : ascii) : is_capital (Js.lower_char x) = false.
Proof. destruct x as [[] [] [] [] [] [] [] []]; reflexivity. Qed.

Lemma lower_char_same_letter (x : ascii) : same_letter x (Js.lower_char x) = true.
Proof. destruct x as [[] [] [] [] [] [] [] []]; reflexivity. Qed.

Lemma same_letter_lower_char (x y : ascii) :
  same_letter x y = true → Js.lower_char x = Js.lower_char y.
Proof.
  unfold same_letter. intros H. apply orb_true_iff in H as [H | H].
  - apply Ascii.eqb_eq in H. by subst.
  - apply existsb_exists in H as (p & Hin & Hp).
    cbn in Hin.
    repeat destruct Hin as [<- | Hin]; try destruct Hin;
      cbn [fst snd] in Hp;
      apply orb_true_iff in Hp as [Hp | Hp];
      apply andb_true_iff in Hp as [Hx Hy];
      apply Ascii.eqb_eq in Hx, Hy; subst; reflexivity.
Qed.

Lemma toLowerCase_lower_case (s : string) : lower_case (Js.toLowerCase s) = true.
Proof.
  unfold lower_case. induction s as [| x s IH]; [done |].
  cbn [Js.toLowerCase list_ascii_of_string forallb].
  by rewrite lower_char_not_capital, IH.
Qed.

Lemma toLowerCase_same_up_to_case (s : string) :
  same_up_to_case s (Js.toLowerCase s) = true.
Proof.
  induction s as [| x s IH]; [done |]. cbn [Js.toLowerCase same_up_to_case].
  by rewrite lower_char_same_letter, IH.
Qed.

Lemma same_up_to_case_toLowerCase (a b : string) :
  same_up_to_case a b = true → Js.toLowerCase a = Js.toLowerCase b.
Proof.
  revert b. induction a as [| x a IH]; intros [| y b] H; try done.
  cbn [same_up_to_case] in H. apply andb_true_iff in H as [Hxy Hab].
  cbn [Js.toLowerCase].
  by rewrite (same_letter_lower_char x y Hxy), (IH b Hab).
Qed.

(** C6.  Emails are ASCII strings; lower case and equality up to letter
    case are read from the alphabet.  A registration with all fields and
    a password of at least 6 characters, when no user is stored under a
    lower-case spelling of its email, creates one user document, and the
    email of that document is in lower case and equal up to letter case
    to the one supplied.  Whether or not it created one, a second
    registration with all fields whose email is equal up to letter case
    to the first is answered with "Email already exists." (422) and
    writes nothing: no second document is created. *)
Theorem registerUser_twice (e1 e2 : Env) (r1 r2 : Request) (w : World)
    (fn1 em1 pw1 fn2 em2 pw2 : string) :
  fullname (body r1) = Some fn1 → fn1 ≠ EmptyString →
  email (body r1) = Some em1 → em1 ≠ EmptyString → ascii_only em1 = true →
  password (body r1) = Some pw1 → 6 ≤ String.length (Js.trim pw1) →
  fullname (body r2) = Some fn2 → fn2 ≠ EmptyString →
  email (body r2) = Some em2 →
  password (body r2) = Some pw2 → pw2 ≠ EmptyString →
  same_up_to_case em1 em2 = true →
  let '(w1, t1) := run (registerUser e1 r1) w in
  let '(w2, t2) := run (registerUser e2 r2) w1 in
  ((∀ l, lower_case l = true → same_up_to_case em1 l = true → ¬ registered w l) →
   ∃ stored,
     lower_case stored = true
     ∧ same_up_to_case em1 stored = true
     ∧ let doc := mkUser (fresh (dom (Users w))) fn1 stored (Bcrypt (salt e1) pw1)
                         None 0 in
       Users w !! user_id doc = None
       ∧ w1 = mkWorld (<[user_id doc := doc]> (Users w)) (Posts w) (uploads w)
       ∧ t1 = [UserCreated doc;
               Respond 201 (JText ("New User " +:+ stored +:+ " registered."))])
  ∧ t2 = [Next (mkHttpError "Email already exists." (Some 422))]
  ∧ w2 = w1.
Proof.
  intros Hfn1 Hfn1' Hem1 Hem1' _ Hpw1 Hlen Hfn2 Hfn2' Hem2 Hpw2 Hpw2' Hsame.
  pose proof (same_up_to_case_toLowerCase em1 em2 Hsame) as Hcase.
  assert (Hem2' : em2 ≠ EmptyString) by eauto using toLowerCase_eq_nonempty.
  assert (Hpw1' : pw1 ≠ EmptyString) by eauto using trimmed_nonempty.
  destruct (registered_dec w (Js.toLowerCase em1)) as [Hreg | Hnone].
  - rewrite (registerUser_conflict e1 r1 w fn1 em1 pw1) by assumption.
    rewrite (registerUser_conflict e2 r2 w fn2 em2 pw2)
      by (try assumption; by rewrite <- Hcase).
    split; [| done]. intros Hfree. destruct (Hfree (Js.toLowerCase em1)).
    + apply toLowerCase_lower_case.
    + apply toLowerCase_same_up_to_case.
    + exact Hreg.
  - rewrite (registerUser_created e1 r1 w fn1 em1 pw1) by assumption.
    rewrite (registerUser_conflict e2 r2 _ fn2 em2 pw2); try assumption.
    + split; [| done]. intros _. exists (Js.toLowerCase em1).
      split; [apply toLowerCase_lower_case |].
      split; [apply toLowerCase_same_up_to_case |].
      split; [apply not_elem_of_dom, is_fresh | done].
    + rewrite <- Hcase. eexists _, _. split; [apply lookup_insert_eq | reflexivity].
Qed.

Lemma registerUser_twice_witness :
  (let '(w1, t1) :=
     run (registerUser Blog.env (Blog.register "Bob" "Bob@Example.org" "secret2"))
         Blog.world in
   let '(w2, t2) :=
     run (registerUser Blog.env (Blog.register "Robert" "BOB@example.ORG" "pw")) w1 in
   ((∀ l, lower_case l = true → same_up_to_case "Bob@Example.org" l = true →
          ¬ registered Blog.world l) →
    ∃ stored,
      lower_case stored = true
      ∧ same_up_to_case "Bob@Example.org" stored = true
      ∧ let doc := mkUser (fresh (dom (Users Blog.world))) "Bob" stored
                          (Bcrypt "salt1" "secret2") None 0 in
        Users Blog.world !! user_id doc = None
        ∧ w1 = mkWorld (<[user_id doc := doc]> (Users Blog.world))
                       (Posts Blog.world) (uploads Blog.world)
        ∧ t1 = [UserCreated doc;
                Respond 201 (JText ("New User " +:+ stored +:+ " registered."))])
   ∧ t2 = [Next (mkHttpError "Email already exists." (Some 422))]
   ∧ w2 = w1)
  ∧ run (registerUser Blog.env (Blog.register "Bob" "Bob@Example.org" "secret2"))
        Blog.world =
      (let doc := mkUser (fresh (dom (Users Blog.world))) "Bob" "bob@example.org"
                         (Bcrypt "salt1" "secret2") None 0 in
       (mkWorld (<[user_id doc := doc]> (Users Blog.world)) (Posts Blog.world)
                (uploads Blog.world),
        [UserCreated doc;
         Respond 201 (JText "New User bob@example.org registered.")])).
Proof.
  split.
  - apply (registerUser_twice Blog.env Blog.env
             (Blog.register "Bob" "Bob@Example.org" "secret2")
             (Blog.register "Robert" "BOB@example.ORG" "pw") Blog.world
             "Bob" "Bob@Example.org" "secret2" "Robert" "BOB@example.ORG" "pw").
    + reflexivity.
    + discriminate.
    + reflexivity.
    + discriminate.
    + vm_compute. reflexivity.
    + reflexivity.
    + vm_compute. lia.
    + reflexivity.
    + discriminate.
    + reflexivity.
    + reflexivity.
    + discriminate.
    + vm_compute. reflexivity.
  - vm_compute. reflexivity.
Defined.

(** ** changeAvatar *)

(** C8, on the code.  For every [changeAvatar] call of a caller with a
    user document whose uploaded file exceeds 500,000 bytes, the first
    reply is the "too big" error, and that error carries no status: the
    422 of the source is handed to [next], not to the error. *)
Theorem changeAvatar_oversized (e : Env) (req : Request) (w : World)
    (fs : Files) (a : File) (u : UserDoc) :
  files req = Some fs → avatar fs = Some a →
  Users w !! id (user req) = Some u →
  (500000 < file_size a)%N →
  reply (snd (run (changeAvatar e req) w)) =
    Some (Next (mkHttpError "Profile picture too big. Should be less than 500kb" None))
  ∧ error_status (snd (run (changeAvatar e req) w)) = None.
Proof.
  intros Hfs Ha Hu Hsize. apply N.ltb_lt in Hsize.
  unfold error_status, changeAvatar. rewrite Hfs, Ha. io_unfold. rewrite Hu, Hsize.
  destruct (negb (Js.falsy (user_avatar u))); [| split; reflexivity].
  destruct (bool_decide (str (user_avatar u) ∈ uploads w)); split; reflexivity.
Qed.

Lemma changeAvatar_oversized_witness :
  reply (snd (run (changeAvatar Blog.env (Blog.change_avatar Blog.big_avatar))
                Blog.world)) =
    Some (Next (mkHttpError "Profile picture too big. Should be less than 500kb" None))
  ∧ error_status (snd (run (changeAvatar Blog.env (Blog.change_avatar Blog.big_avatar))
                         Blog.world)) = None.
Proof.
  apply (changeAvatar_oversized Blog.env (Blog.change_avatar Blog.big_avatar)
           Blog.world (mkFiles None (Some Blog.big_avatar)) Blog.big_avatar Blog.ann).
  - reflexivity.
  - reflexivity.
  - vm_compute. reflexivity.
  - vm_compute. reflexivity.
Defined.

(** ** Patterns made from a plain string *)

Module RegExpFacts.
Import RegExp.

Lemma parse_plain_char (ch : ascii) (rest : string) stack top :
  is_syntax ch = false →
  parse (String ch rest) stack top = parse rest stack (push top (Char ch) Atom).
Proof.
  intros H. unfold is_syntax in H. cbn [existsb] in H.
  repeat (apply orb_false_elim in H as [? H]).
  cbn [parse]. unfold is_quantifier, is_bracket. cbn [existsb].
  repeat match goal with
         | Heq : Ascii.eqb ch _ = false |- _ => rewrite Heq; clear Heq
         end.
  reflexivity.
Qed.

Lemma parse_plain (c rest : string) stack top :
  plain c = true →
  parse (c +:+ rest) stack top =
    parse rest stack (mkFrame (alts top) (pushed c (terms top))).
Proof.
  revert top. induction c as [| ch c IH]; intros top Hplain.
  - by destruct top.
  - cbn in Hplain. apply andb_true_iff in Hplain as [Hch Hc].
    apply negb_true_iff in Hch.
    change (String ch c +:+ rest) with (String ch (c +:+ rest)).
    rewrite parse_plain_char by assumption.
    rewrite IH by assumption. reflexivity.
Qed.

Lemma alternative_pushed (c : string) ts (tail : regex) :
  fold_left (λ acc t, Seq (fst t) acc) (pushed c ts) tail =
    fold_left (λ acc t, Seq (fst t) acc) ts (literal c tail).
Proof.
  revert ts. induction c as [| ch c IH]; intros ts; [done |].
  unfold pushed in *. cbn. by rewrite IH.
Qed.

(** Between [^] and [$] a plain string compiles to itself. *)
Lemma compile_plain (c : string) :
  plain c = true →
  compile ("^" +:+ c +:+ "$") = Parsed (Seq Bol (literal c (Seq Eol Empty))).
Proof.
  intros Hplain. unfold compile.
  change ("^" +:+ c +:+ "$") with (String "^" (c +:+ "$")).
  cbn [parse]. cbn. rewrite parse_plain by assumption. cbn.
  unfold disjunction, alternative. cbn.
  by rewrite alternative_pushed.
Qed.

Lemma matches_literal (c s : string) (i : nat) :
  matches true (literal c (Seq Eol Empty)) i s (λ _ _, true) = same_letters c s.
Proof.
  revert s i. induction c as [| x c IH]; intros s i.
  - by destruct s.
  - destruct s as [| y s]; [done |]. cbn. by rewrite IH.
Qed.

(** A pattern that begins with [^] matches at the start or nowhere. *)
Lemma search_after_start (r : regex) (s : string) (i : nat) :
  search true (Seq Bol r) (S i) s = false.
Proof. revert i. induction s as [| y s IH]; intros i; cbn; [done | apply IH]. Qed.

Lemma test_literal (c s : string) :
  test true (Seq Bol (literal c (Seq Eol Empty))) s = same_letters c s.
Proof.
  unfold test. destruct s as [| y s]; cbn -[matches].
  - cbn [matches]. rewrite matches_literal. cbn. by rewrite orb_false_r.
  - rewrite search_after_start, orb_false_r. cbn [matches]. cbn.
    apply matches_literal.
Qed.
End RegExpFacts.

Lemma lower_upper_char (x : ascii) : Js.lower_char (Js.upper_char x) = Js.lower_char x.
Proof. destruct x as [[] [] [] [] [] [] [] []]; reflexivity. Qed.

Lemma upper_lower_char (x : ascii) : Js.upper_char (Js.lower_char x) = Js.upper_char x.
Proof. destruct x as [[] [] [] [] [] [] [] []]; reflexivity. Qed.

Lemma upper_char_eq (x y : ascii) :
  Js.upper_char y = Js.upper_char x ↔ Js.lower_char x = Js.lower_char y.
Proof.
  split; intros H.
  - by rewrite <- (lower_upper_char x), <- (lower_upper_char y), H.
  - by rewrite <- (upper_lower_char x), <- (upper_lower_char y), H.
Qed.

Lemma same_letters_spec (c s : string) :
  same_letters c s = bool_decide (equal_ignoring_case c s).
Proof.
  unfold equal_ignoring_case. revert s.
  induction c as [| x c IH]; intros [| y s]; try done.
  cbn [same_letters Js.toLowerCase]. rewrite IH.
  apply eq_true_iff_eq. rewrite andb_true_iff, Ascii.eqb_eq, upper_char_eq.
  rewrite !bool_decide_eq_true. split.
  - intros [-> ->]. done.
  - intros [= -> ->]. done.
Qed.

(** ** getCatPosts *)

(** The listing of the specification holds exactly the posts of the
    category. *)
Lemma spec_listByCategory_exact (c : string) (w : World) (p : PostDoc) :
  In p (spec_listByCategory c w) ↔
  (∃ i, Posts w !! i = Some p) ∧ equal_ignoring_case c (post_category p).
Proof.
  unfold spec_listByCategory.
  rewrite <- list_elem_of_In, merge_sort_Permutation, list_elem_of_In.
  rewrite filter_In, In_documents, bool_decide_eq_true. reflexivity.
Qed.

(** On a parameter without pattern syntax, the category names among
    them, [getCatPosts] lists what the specification says. *)
Lemma getCatPosts_plain (req : Request) (w : World) :
  plain (params_category req) = true →
  ∃ h, getCatPosts req = Some h
       ∧ run h w = (w, listing w (spec_listByCategory (params_category req) w)).
Proof.
  intros Hplain. unfold getCatPosts.
  rewrite RegExpFacts.compile_plain by assumption.
  eexists. split; [reflexivity |].
  unfold run, bind, Post_find_sorted, populate, listing, spec_listByCategory.
  rewrite (filter_ext _ (λ p, bool_decide
             (equal_ignoring_case (params_category req) (post_category p)))).
  - cbn. rewrite !length_fmap.
    by destruct (length _ =? 0).
  - intros p. rewrite RegExpFacts.test_literal. apply same_letters_spec.
Qed.

(** [listByCategory("art")] and [listByCategory("Art")] answer alike. *)
Lemma getCatPosts_art_Art (w : World) :
  ∃ h h', getCatPosts (Blog.by_category "art") = Some h
          ∧ getCatPosts (Blog.by_category "Art") = Some h'
          ∧ run h w = run h' w.
Proof.
  destruct (getCatPosts_plain (Blog.by_category "art") w eq_refl) as (h & Hh & Hrun).
  destruct (getCatPosts_plain (Blog.by_category "Art") w eq_refl) as (h' & Hh' & Hrun').
  exists h, h'. repeat split; try assumption.
  rewrite Hrun, Hrun'. reflexivity.
Qed.

(** C7, on the code.  The parameter is pasted into the pattern as it
    is: for [.*] the handler answers with both posts of the blog, the
    one of category [Business] and the one of category [Art], although
    neither category equals [.*] under case-insensitive comparison and
    the listing of the specification is empty. *)
Theorem getCatPosts_pattern_parameter :
  let ann := Some (mkCreator "u1" "Ann" None) in
  (∃ h, getCatPosts (Blog.by_category ".*") = Some h
        ∧ run h Blog.world =
            (Blog.world,
             [Respond 200 (JPosts [(Blog.business_post, ann); (Blog.art_post, ann)])]))
  ∧ spec_listByCategory ".*" Blog.world = []
  ∧ ¬ equal_ignoring_case ".*" (post_category Blog.art_post).
Proof.
  split; [| split].
  - eexists. split; [reflexivity |]. vm_compute. reflexivity.
  - vm_compute. reflexivity.
  - vm_compute. discriminate.
Qed.

(** * Further properties of the controllers *)

(** ** Counting the posts of a user *)

Lemma filter_length_Permutation {A} (f : A → bool) (l l' : list A) :
  l ≡ₚ l' → length (List.filter f l) = length (List.filter f l').
Proof.
  induction 1 as [| x l l' _ IH | x y l | l l' l'' _ IH1 _ IH2]; cbn.
  - reflexivity.
  - destruct (f x); cbn; by rewrite IH.
  - destruct (f x), (f y); reflexivity.
  - by rewrite IH1.
Qed.

Lemma posts_by_insert_fresh (m : gmap string PostDoc) (i : string) (p : PostDoc)
    (uid : string) :
  m !! i = None →
  posts_by (<[i := p]> m) uid =
    (if String.eqb (post_creator p) uid then 1 else 0) + posts_by m uid.
Proof.
  intros Hfresh. unfold posts_by.
  rewrite (filter_length_Permutation _ _ (p :: (snd <$> map_to_list m))).
  - cbn. by destruct (String.eqb _ _).
  - by rewrite (map_to_list_insert m i p Hfresh).
Qed.

Lemma posts_by_delete (m : gmap string PostDoc) (i : string) (p : PostDoc)
    (uid : string) :
  m !! i = Some p →
  posts_by m uid =
    (if String.eqb (post_creator p) uid then 1 else 0) + posts_by (delete i m) uid.
Proof.
  intros Hp. unfold posts_by.
  rewrite (filter_length_Permutation _ (snd <$> map_to_list m)
             (p :: (snd <$> map_to_list (delete i m)))).
  - cbn. by destruct (String.eqb _ _).
  - by rewrite <- (map_to_list_delete m i p Hp).
Qed.

Lemma posts_by_replace (m : gmap string PostDoc) (i : string) (p p' : PostDoc)
    (uid : string) :
  m !! i = Some p → post_creator p' = post_creator p →
  posts_by (<[i := p']> m) uid = posts_by m uid.
Proof.
  intros Hp Hcreator.
  rewrite <- (insert_delete_eq m i p').
  rewrite posts_by_insert_fresh by apply lookup_delete_eq.
  rewrite (posts_by_delete m i p uid Hp), Hcreator. reflexivity.
Qed.

(** ** What the post handlers can do to the store *)

Lemma createPost_effect (e : Env) (req : Request) (w : World) :
  let w' := fst (run (createPost e req) w) in
  w' = w
  ∨ ∃ p, Posts w !! post_id p = None
         ∧ post_creator p = id (user req)
         ∧ Posts w' = <[post_id p := p]> (Posts w)
         ∧ Users w' =
             match Users w !! id (user req) with
             | Some u => <[id (user req) := set_posts (user_posts u + 1) u]> (Users w)
             | None => Users w
             end.
Proof.
  unfold createPost. destruct (body req) as [t c d fn em pw].
  destruct (_ || _); [by left |].
  destruct (negb _); [by left |].
  destruct (files req ≫= thumbnail) as [f|]; [| by left].
  destruct (_ <? _)%N; [by left |].
  right. io_unfold. cbn.
  eexists (mkPost (fresh (dom (Posts w))) _ _ _ _ _ _ _).
  split; [apply not_elem_of_dom, is_fresh |].
  destruct (Users w !! id (user req)) as [u|] eqn:Hu; cbn; rewrite ?Hu; cbn; done.
Qed.

Lemma deletePost_effect (req : Request) (w : World) :
  let w' := fst (run (deletePost req) w) in
  w' = w
  ∨ ∃ p, Posts w !! params_id req = Some p
         ∧ post_creator p = id (user req)
         ∧ Posts w' = delete (params_id req) (Posts w)
         ∧ Users w' =
             match Users w !! id (user req) with
             | Some u => <[id (user req) := set_posts (user_posts u - 1) u]> (Users w)
             | None => Users w
             end.
Proof.
  unfold deletePost, run, bind, Post_findById.
  destruct (Posts w !! params_id req) as [p|] eqn:Hp; [| by left].
  destruct (String.eqb _ _) eqn:Hown; [| by left].
  apply String.eqb_eq in Hown.
  unfold fs_unlink. destruct (bool_decide _); [| by left].
  right. exists p. split; [done | split; [done |]].
  io_unfold. cbn. rewrite Hp. cbn.
  destruct (Users w !! id (user req)) as [u|] eqn:Hu; cbn; rewrite ?Hu; cbn; done.
Qed.

Lemma editPost_effect (e : Env) (req : Request) (w : World) :
  let w' := fst (run (editPost e req) w) in
  Users w' = Users w
  ∧ (Posts w' = Posts w
     ∨ ∃ p p', Posts w !! params_id req = Some p
               ∧ Posts w' = <[params_id req := p']> (Posts w)
               ∧ post_creator p' = post_creator p
               ∧ post_id p' = post_id p
               ∧ post_createdAt p' = post_createdAt p).
Proof.
  unfold editPost. destruct (body req) as [t c d fn em pw].
  destruct (_ || _); [by split; [| left] |].
  destruct d as [d|]; [| by split; [| left]].
  destruct (_ <? _); [by split; [| left] |].
  destruct (negb _); [by split; [| left] |].
  unfold run, bind, Post_findById.
  destruct (Posts w !! params_id req) as [p|] eqn:Hp; [| by split; [| left]].
  destruct (String.eqb _ _); [| by split; [| left]].
  destruct (files req) as [fs|].
  - unfold fs_unlink.
    destruct (bool_decide _); cbn;
      (destruct (thumbnail fs) as [f|]; [| by split; [| left]]);
      (destruct (_ <? _)%N; [by split; [| left] |]);
      io_unfold; cbn; rewrite Hp; cbn;
      (split; [done | right; eexists _, _; repeat split; done]).
  - io_unfold. rewrite Hp. cbn.
    split; [done | right; eexists _, _; repeat split; done].
Qed.

(** ** The posts counters *)

Lemma counters_after_create (w w' : World) (p : PostDoc) (uid : string) :
  counters_consistent w →
  Posts w !! post_id p = None → post_creator p = uid →
  Posts w' = <[post_id p := p]> (Posts w) →
  Users w' = match Users w !! uid with
             | Some u => <[uid := set_posts (user_posts u + 1) u]> (Users w)
             | None => Users w
             end →
  counters_consistent w'.
Proof.
  intros Hcons Hfresh Hcreator HP HU i u Hi.
  rewrite HP, posts_by_insert_fresh, Hcreator by assumption.
  rewrite HU in Hi. destruct (decide (uid = i)) as [-> | Hne].
  - rewrite String.eqb_refl.
    destruct (Users w !! i) as [u0|] eqn:Hu0.
    + rewrite lookup_insert_eq in Hi. injection Hi as <-. cbn.
      rewrite (Hcons i u0 Hu0). lia.
    + congruence.
  - apply String.eqb_neq in Hne as Hneq. rewrite Hneq. cbn.
    destruct (Users w !! uid); [rewrite lookup_insert_ne in Hi by done |];
      by apply Hcons.
Qed.

Lemma counters_after_delete (w w' : World) (p : PostDoc) (pid uid : string) :
  counters_consistent w →
  Posts w !! pid = Some p → post_creator p = uid →
  Posts w' = delete pid (Posts w) →
  Users w' = match Users w !! uid with
             | Some u => <[uid := set_posts (user_posts u - 1) u]> (Users w)
             | None => Users w
             end →
  counters_consistent w'.
Proof.
  intros Hcons Hp Hcreator HP HU i u Hi. rewrite HP.
  pose proof (posts_by_delete (Posts w) pid p i Hp) as Hcount.
  rewrite Hcreator in Hcount.
  rewrite HU in Hi. destruct (decide (uid = i)) as [-> | Hne].
  - rewrite String.eqb_refl in Hcount.
    destruct (Users w !! i) as [u0|] eqn:Hu0.
    + rewrite lookup_insert_eq in Hi. injection Hi as <-. cbn.
      rewrite (Hcons i u0 Hu0). lia.
    + congruence.
  - apply String.eqb_neq in Hne as Hneq. rewrite Hneq in Hcount. cbn in Hcount.
    rewrite <- Hcount.
    destruct (Users w !! uid); [rewrite lookup_insert_ne in Hi by done |];
      by apply Hcons.
Qed.

(** X1.  [createPost] keeps every posts counter equal to the number of
    posts of its user, whatever the request. *)
Theorem createPost_preserves_counters (e : Env) (req : Request) (w : World) :
  counters_consistent w →
  counters_consistent (fst (run (createPost e req) w)).
Proof.
  intros Hcons. destruct (createPost_effect e req w) as [-> | (p & ? & ? & ? & ?)].
  - assumption.
  - eapply counters_after_create; eassumption.
Qed.

(** X2.  [deletePost] keeps every posts counter equal to the number of
    posts of its user, whatever the request. *)
Theorem deletePost_preserves_counters (req : Request) (w : World) :
  counters_consistent w →
  counters_consistent (fst (run (deletePost req) w)).
Proof.
  intros Hcons. destruct (deletePost_effect req w) as [-> | (p & ? & ? & ? & ?)].
  - assumption.
  - eapply counters_after_delete; eassumption.
Qed.

(** X3.  [editPost] keeps every posts counter equal to the number of
    posts of its user, whatever the request. *)
Theorem editPost_preserves_counters (e : Env) (req : Request) (w : World) :
  counters_consistent w →
  counters_consistent (fst (run (editPost e req) w)).
Proof.
  intros Hcons i u Hi.
  destruct (editPost_effect e req w) as [HU [HP | (p & p' & Hp & HP & Hc & _)]];
    rewrite HU in Hi; rewrite HP.
  - by apply Hcons.
  - rewrite (posts_by_replace _ _ p p') by assumption. by apply Hcons.
Qed.

(** X4.  Whatever the request, [editPost] adds no post, removes none and
    leaves the id, the creator and the creation time of every post, and
    every user document, as they were. *)
Theorem editPost_keeps_creator (e : Env) (req : Request) (w : World) (i : string) :
  let w' := fst (run (editPost e req) w) in
  Users w' = Users w
  ∧ match Posts w !! i with
    | Some p => ∃ p', Posts w' !! i = Some p'
                      ∧ post_creator p' = post_creator p
                      ∧ post_id p' = post_id p
                      ∧ post_createdAt p' = post_createdAt p
    | None => Posts w' !! i = None
    end.
Proof.
  destruct (editPost_effect e req w) as [HU [HP | (p & p' & Hp & HP & Hc & Hid & Hat)]];
    (split; [exact HU |]); rewrite HP.
  - destruct (Posts w !! i) as [p|]; [by exists p | done].
  - destruct (decide (params_id req = i)) as [<- | Hne].
    + rewrite Hp, lookup_insert_eq. by exists p'.
    + rewrite lookup_insert_ne by done.
      destruct (Posts w !! i) as [q|]; [by exists q | done].
Qed.

Lemma Blog_counters : counters_consistent Blog.world.
Proof.
  intros i u Hi. cbn [Users Blog.world] in Hi.
  apply lookup_singleton_Some in Hi as [<- <-].
  vm_compute. reflexivity.
Qed.

Lemma createPost_preserves_counters_witness :
  counters_consistent (fst (run (createPost Blog.env Blog.create_weather) Blog.world)).
Proof.
  apply (createPost_preserves_counters Blog.env Blog.create_weather Blog.world).
  apply Blog_counters.
Defined.

Lemma deletePost_preserves_counters_witness :
  counters_consistent (fst (run (deletePost (Blog.delete_p1 Blog.Ann)) Blog.world)).
Proof.
  apply (deletePost_preserves_counters (Blog.delete_p1 Blog.Ann) Blog.world).
  apply Blog_counters.
Defined.

Lemma editPost_preserves_counters_witness :
  counters_consistent
    (fst (run (editPost Blog.env
                 (Blog.edit_p1 Blog.Ann (Blog.upload_thumbnail Blog.small_file)))
            Blog.world)).
Proof.
  apply (editPost_preserves_counters Blog.env
           (Blog.edit_p1 Blog.Ann (Blog.upload_thumbnail Blog.small_file)) Blog.world).
  apply Blog_counters.
Defined.

(** ** Requests the post handlers refuse *)

(** X5.  [createPost] answers 422 and stores nothing, neither file nor
    document, when the category is missing or not one of the list. *)
Theorem createPost_invalid_category (e : Env) (req : Request) (w : World) :
  isValidCategory (category (body req)) = false →
  ∃ msg, run (createPost e req) w = (w, [Next (mkHttpError msg (Some 422))]).
Proof.
  intros Hcat. unfold createPost. destruct (body req) as [t c d fn em pw].
  cbn in Hcat. rewrite Hcat.
  destruct (_ || _); eexists; reflexivity.
Qed.

Lemma createPost_invalid_category_witness :
  ∃ msg,
    run (createPost Blog.env
           (mkRequest EmptyString EmptyString
              (Blog.post_body "Rain" "Unknown" "<p>About rain</p>")
              (Blog.upload_thumbnail Blog.small_file) Blog.Ann))
        Blog.world =
      (Blog.world, [Next (mkHttpError msg (Some 422))]).
Proof.
  apply (createPost_invalid_category Blog.env
           (mkRequest EmptyString EmptyString
              (Blog.post_body "Rain" "Unknown" "<p>About rain</p>")
              (Blog.upload_thumbnail Blog.small_file) Blog.Ann) Blog.world).
  vm_compute. reflexivity.
Defined.

(** X6.  A thumbnail of more than 2,000,000 bytes makes [createPost]
    answer 422 before anything is stored: no file, no document, no
    counter. *)
Theorem createPost_oversized (e : Env) (req : Request) (w : World)
    (fs : Files) (f : File) :
  Js.falsy (title (body req)) = false →
  Js.falsy (description (body req)) = false →
  isValidCategory (category (body req)) = true →
  files req = Some fs → thumbnail fs = Some f →
  (2000000 < file_size f)%N →
  run (createPost e req) w =
    (w, [Next (mkHttpError "Thumbnail too big. File should be less than 2mb."
                           (Some 422))]).
Proof.
  intros Ht Hd Hcat Hfs Hf Hsize. unfold createPost.
  destruct (body req) as [t c d fn em pw]. cbn in Ht, Hd, Hcat.
  assert (Hc : Js.falsy c = false).
  { destruct c as [c|]; [| discriminate]. apply falsy_Some.
    apply category_nonempty. unfold isValidCategory in Hcat.
    apply existsb_exists in Hcat as (x & Hin & Heq).
    apply String.eqb_eq in Heq. by subst. }
  rewrite Ht, Hd, Hc, Hcat, Hfs. cbn. rewrite Hf.
  apply N.ltb_lt in Hsize. rewrite Hsize. reflexivity.
Qed.

Lemma createPost_oversized_witness :
  run (createPost Blog.env
         (mkRequest EmptyString EmptyString
            (Blog.post_body "Rain" "Weather" "<p>About rain</p>")
            (Blog.upload_thumbnail Blog.big_thumbnail) Blog.Ann))
      Blog.world =
    (Blog.world,
     [Next (mkHttpError "Thumbnail too big. File should be less than 2mb." (Some 422))]).
Proof.
  apply (createPost_oversized Blog.env _ Blog.world
           (mkFiles (Some Blog.big_thumbnail) None) Blog.big_thumbnail);
    vm_compute; reflexivity.
Defined.


(** The effect of a [deletePost] that goes through. *)
Lemma deletePost_owner_run (req : Request) (w : World) (post : PostDoc) (u : UserDoc) :
  Posts w !! params_id req = Some post →
  post_creator post = id (user req) →
  post_thumbnail post ∈ uploads w →
  Users w !! id (user req) = Some u →
  run (deletePost req) w =
    (mkWorld (<[id (user req) := set_posts (user_posts u - 1) u]> (Users w))
             (delete (params_id req) (Posts w))
             (uploads w ∖ {[post_thumbnail post]}),
     [FsUnlink (post_thumbnail post) None;
      PostDeleted (params_id req);
      UserUpdated (id (user req));
      Respond 200 (JText ("Post " +:+ params_id req +:+ " deleted successfully"))]).
Proof.
  intros Hpost Hown Hfile Huser.
  unfold run, deletePost, bind, Post_findById.
  rewrite Hpost, Hown, String.eqb_refl.
  unfold fs_unlink. rewrite (bool_decide_eq_true_2 _ Hfile).
  unfold Post_findByIdAndDelete, User_findById, User_findByIdAndUpdate.
  repeat (progress (cbn; rewrite ?Hpost, ?Huser)). reflexivity.
Qed.

Lemma deletePost_absent (req : Request) (w : World) :
  Posts w !! params_id req = None →
  run (deletePost req) w = (w, [Next (mkHttpError "Post unavailable" (Some 404))]).
Proof.
  intros Hnone. unfold run, deletePost, bind, Post_findById. by rewrite Hnone.
Qed.

(** X7.  A [deletePost] that went through cannot be repeated: the same
    request, sent again, is answered 404 and changes nothing more; the
    counter is decreased once. *)
Theorem deletePost_twice (req : Request) (w : World) (post : PostDoc) (u : UserDoc) :
  Posts w !! params_id req = Some post →
  post_creator post = id (user req) →
  post_thumbnail post ∈ uploads w →
  Users w !! id (user req) = Some u →
  let w1 := fst (run (deletePost req) w) in
  run (deletePost req) w1 =
    (w1, [Next (mkHttpError "Post unavailable" (Some 404))])
  ∧ user_posts <$> (Users w1 !! id (user req)) = Some (user_posts u - 1)%Z.
Proof.
  intros Hpost Hown Hfile Huser.
  rewrite (deletePost_owner_run req w post u) by assumption. cbn [fst].
  split.
  - apply deletePost_absent. apply lookup_delete_eq.
  - cbn. by rewrite lookup_insert_eq.
Qed.

Lemma deletePost_twice_witness :
  let w1 := fst (run (deletePost (Blog.delete_p1 Blog.Ann)) Blog.world) in
  run (deletePost (Blog.delete_p1 Blog.Ann)) w1 =
    (w1, [Next (mkHttpError "Post unavailable" (Some 404))])
  ∧ user_posts <$> (Users w1 !! "u1") = Some 1%Z.
Proof.
  apply (deletePost_twice (Blog.delete_p1 Blog.Ann) Blog.world Blog.art_post Blog.ann);
    vm_compute; reflexivity.
Defined.

(** ** Edits by the creator *)

Section EditPostOwner.
Variables (e : Env) (req : Request) (w : World).
Variables (t c d : string) (post : PostDoc).
Hypothesis Htitle : title (body req) = Some t.
Hypothesis Ht : t ≠ EmptyString.
Hypothesis Hcategory : category (body req) = Some c.
Hypothesis Hc : In c categories.
Hypothesis Hdescription : description (body req) = Some d.
Hypothesis Hd : 12 ≤ String.length d.
Hypothesis Hpost : Posts w !! params_id req = Some post.
Hypothesis Hown : id (user req) = post_creator post.

(** X8.  An edit by the creator without a file replaces the title, the
    category and the description of the post and stamps the update
    time; the thumbnail, the creator, the id and the creation time, the
    uploads folder and the users stay as they were; the answer is the
    updated post. *)
Theorem editPost_owner_content :
  files req = None →
  let updated := mkPost (post_id post) t c d (post_thumbnail post)
                        (post_creator post) (post_createdAt post) (now e) in
  run (editPost e req) w =
    (mkWorld (Users w) (<[params_id req := updated]> (Posts w)) (uploads w),
     [PostUpdated (params_id req); Respond 200 (JPost updated)]).
Proof.
  intros Hfiles updated.
  rewrite (editPost_validated e req t c d) by assumption.
  io_unfold. rewrite Hpost, Hown, String.eqb_refl, Hfiles.
  repeat (progress (cbn; rewrite ?Hpost)). reflexivity.
Qed.

(** X9.  An edit by the creator with a thumbnail of at most 2,000,000
    bytes swaps the files: the old thumbnail leaves the uploads folder,
    the new one enters it under its generated name, the other files and
    the users are untouched, and the post refers to the new name. *)
Theorem editPost_swaps_thumbnail (fs : Files) (f : File) :
  files req = Some fs → thumbnail fs = Some f →
  (file_size f ≤ 2000000)%N →
  let updated := mkPost (post_id post) t c d (editPost_filename e f)
                        (post_creator post) (post_createdAt post) (now e) in
  fst (run (editPost e req) w) =
    mkWorld (Users w) (<[params_id req := updated]> (Posts w))
            ({[editPost_filename e f]} ∪ (uploads w ∖ {[post_thumbnail post]})).
Proof.
  intros Hfs Hf Hsize updated.
  rewrite (editPost_validated e req t c d) by assumption.
  apply N.ltb_ge in Hsize.
  io_unfold. rewrite Hpost, Hown, String.eqb_refl, Hfs.
  destruct (bool_decide (post_thumbnail post ∈ uploads w)) eqn:Hin;
    repeat (progress (cbn; rewrite ?Hf, ?Hsize, ?Hpost)).
  - reflexivity.
  - apply bool_decide_eq_false in Hin. by rewrite (removed_absent _ _ Hin).
Qed.
End EditPostOwner.

(** ** Listings *)

Global Instance newer_first_total : Total newer_first.
Proof. intros p q. unfold newer_first. lia. Qed.

Lemma filter_all {A} (l : list A) : List.filter (λ _, true) l = l.
Proof. induction l as [| x l IH]; cbn; [done | by rewrite IH]. Qed.

Lemma populated_posts {B} (f : PostDoc → B) (l : list PostDoc) :
  ((λ p, (p, f p)) <$> l).*1 = l.
Proof. induction l as [| x l IH]; cbn; [done | by rewrite IH]. Qed.

Lemma In_populated {B} (f : PostDoc → B) (l : list PostDoc) (p : PostDoc) (b : B) :
  In (p, b) ((λ p, (p, f p)) <$> l) → b = f p.
Proof.
  intros Hin. apply list_elem_of_In, list_elem_of_fmap in Hin as (q & [= -> ->] & _).
  reflexivity.
Qed.

Lemma getUserPosts_run (castable : string → bool) (req : Request) (w : World) :
  castable (params_id req) = true →
  getUserPosts castable req w =
    (let found := merge_sort newer_first
                    (List.filter (λ p, String.eqb (post_creator p) (params_id req))
                       (snd <$> map_to_list (Posts w))) in
     let posts := (λ p, (p, creator_of <$> Users w !! post_creator p)) <$> found in
     if length found =? 0
     then Failed (mkHttpError "Database has empty post." (Some 404))
     else Sent 200 posts, w, []).
Proof.
  intros Hcast. unfold getUserPosts. rewrite Hcast.
  unfold bind, Post_find_sorted, populate, ret. cbn. rewrite length_fmap.
  by destruct (length _ =? 0).
Qed.

(** X10.  For a well-formed user id [getUserPosts] changes nothing and
    lists exactly the stored posts whose creator is that id, most
    recently updated first; it answers 404 exactly when there is none. *)
Theorem getUserPosts_exact (castable : string → bool) (req : Request) (w : World) :
  castable (params_id req) = true →
  ∃ answer,
    getUserPosts castable req w = (answer, w, [])
    ∧ (∀ p, In p (listed answer).*1 ↔
            (∃ i, Posts w !! i = Some p) ∧ post_creator p = params_id req)
    ∧ Sorted newer_first (listed answer).*1
    ∧ (answer = Failed (mkHttpError "Database has empty post." (Some 404)) ↔
       posts_by (Posts w) (params_id req) = 0)
    ∧ length (listed answer) = posts_by (Posts w) (params_id req).
Proof.
  intros Hcast. rewrite getUserPosts_run by assumption. cbv zeta.
  set (found := merge_sort _ _).
  assert (Hlen : length found = posts_by (Posts w) (params_id req)).
  { unfold found, posts_by. by rewrite merge_sort_Permutation. }
  assert (Hin : ∀ p, In p found ↔
            (∃ i, Posts w !! i = Some p) ∧ post_creator p = params_id req).
  { intros p. unfold found.
    rewrite <- list_elem_of_In, merge_sort_Permutation, list_elem_of_In.
    by rewrite filter_In, In_documents, String.eqb_eq. }
  assert (Hsorted : Sorted newer_first found) by apply Sorted_merge_sort, _.
  eexists. split; [reflexivity |]. rewrite <- Hlen.
  destruct found as [| p found]; cbn [length Nat.eqb listed].
  - split; [exact Hin |]. split; [exact Hsorted |]. by split.
  - rewrite populated_posts, length_fmap.
    split; [exact Hin |]. split; [exact Hsorted |]. by split.
Qed.

(** X11.  Where the posts counters are consistent, [getUserPosts] lists
    as many posts as the counter of the user says. *)
Theorem getUserPosts_counter (castable : string → bool) (req : Request) (w : World)
    (u : UserDoc) :
  counters_consistent w →
  Users w !! params_id req = Some u →
  castable (params_id req) = true →
  Z.of_nat (length (listed (fst (fst (getUserPosts castable req w))))) = user_posts u.
Proof.
  intros Hcons Hu Hcast. rewrite getUserPosts_run by assumption. cbv zeta. cbn [fst].
  rewrite (Hcons _ _ Hu). f_equal. unfold posts_by.
  rewrite <- (filter_length_Permutation _ _ _
                (merge_sort_Permutation newer_first (snd <$> map_to_list (Posts w)))).
  set (found := merge_sort _ _).
  assert (Hlen : length found =
                 length (List.filter (λ p, String.eqb (post_creator p) (params_id req))
                           (merge_sort newer_first (snd <$> map_to_list (Posts w))))).
  { unfold found. rewrite merge_sort_Permutation.
    apply filter_length_Permutation. by rewrite merge_sort_Permutation. }
  rewrite <- Hlen. destruct found; cbn; [done | by rewrite length_fmap].
Qed.

Lemma getUserPosts_counter_witness :
  Z.of_nat (length (listed (fst (fst (getUserPosts any_id
                                        (mkRequest "u1" EmptyString Blog.no_body None
                                           Blog.Bob)
                                        Blog.world))))) = 2%Z.
Proof.
  apply (getUserPosts_counter any_id
           (mkRequest "u1" EmptyString Blog.no_body None Blog.Bob) Blog.world Blog.ann).
  - apply Blog_counters.
  - vm_compute. reflexivity.
  - reflexivity.
Defined.

Lemma getUserPosts_exact_witness :
  ∃ answer,
    getUserPosts any_id (mkRequest "u1" EmptyString Blog.no_body None Blog.Bob)
      Blog.world = (answer, Blog.world, [])
    ∧ (∀ p, In p (listed answer).*1 ↔
            (∃ i, Posts Blog.world !! i = Some p) ∧ post_creator p = "u1")
    ∧ Sorted newer_first (listed answer).*1
    ∧ (answer = Failed (mkHttpError "Database has empty post." (Some 404)) ↔
       posts_by (Posts Blog.world) "u1" = 0)
    ∧ length (listed answer) = posts_by (Posts Blog.world) "u1".
Proof.
  apply (getUserPosts_exact any_id
           (mkRequest "u1" EmptyString Blog.no_body None Blog.Bob) Blog.world).
  reflexivity.
Defined.

Lemma getPosts_run (w : World) :
  getPosts w =
    (let found := merge_sort newer_first (snd <$> map_to_list (Posts w)) in
     let posts :=
       (λ p, (p, (λ u, mkAuthor (user_id u) (user_name u) (user_posts u)
                               (user_avatar u)) <$> Users w !! post_creator p))
       <$> found in
     if length found =? 0
     then Failed (mkHttpError "Database has empty post." (Some 404))
     else Sent 200 posts, w, []).
Proof.
  unfold getPosts, bind, Post_find_sorted, populate_authors, ret.
  rewrite filter_all. cbn. rewrite length_fmap.
  by destruct (length _ =? 0).
Qed.

Lemma getAuthors_run (w : World) :
  getAuthors w =
    (let authors := without_password <$> (snd <$> map_to_list (Users w)) in
     if length authors =? 0
     then Failed (mkHttpError "No authors have registered in the database."
                              (Some 404))
     else Sent 200 authors, w, []).
Proof.
  unfold getAuthors, bind, User_find_public, ret. cbn.
  by destruct (length _ =? 0).
Qed.

(** X12.  [getPosts] changes nothing and lists every stored post once,
    most recently updated first, each with the id, name, counter and
    avatar of its creator when that user exists; it answers 404 exactly
    when no post is stored. *)
Theorem getPosts_all (w : World) :
  ∃ answer,
    getPosts w = (answer, w, [])
    ∧ (∀ p, In p (listed answer).*1 ↔ ∃ i, Posts w !! i = Some p)
    ∧ Sorted newer_first (listed answer).*1
    ∧ length (listed answer) = size (Posts w)
    ∧ (answer = Failed (mkHttpError "Database has empty post." (Some 404)) ↔
       Posts w = ∅)
    ∧ (∀ p a, In (p, a) (listed answer) →
              a = (λ u, mkAuthor (user_id u) (user_name u) (user_posts u)
                                 (user_avatar u)) <$> Users w !! post_creator p).
Proof.
  rewrite getPosts_run. cbv zeta. set (found := merge_sort _ _).
  assert (Hlen : length found = size (Posts w)).
  { unfold found. by rewrite merge_sort_Permutation, length_fmap, length_map_to_list. }
  assert (Hin : ∀ p, In p found ↔ ∃ i, Posts w !! i = Some p).
  { intros p. unfold found.
    rewrite <- list_elem_of_In, merge_sort_Permutation, list_elem_of_In.
    apply In_documents. }
  assert (Hsorted : Sorted newer_first found) by apply Sorted_merge_sort, _.
  eexists. split; [reflexivity |].
  rewrite <- map_size_empty_iff, <- Hlen.
  destruct found as [| p found]; cbn [length Nat.eqb listed].
  - split; [exact Hin |]. split; [exact Hsorted |]. split; [done |].
    split; [done |]. intros p a [].
  - rewrite populated_posts, length_fmap.
    split; [exact Hin |]. split; [exact Hsorted |]. split; [done |].
    split; [done |]. intros q a Hq. by apply In_populated in Hq.
Qed.

(** X13.  [getAuthors] changes nothing and lists every stored user once,
    without the password; it answers 404 exactly when no user is stored. *)
Theorem getAuthors_all (w : World) :
  ∃ answer,
    getAuthors w = (answer, w, [])
    ∧ (∀ a, In a (listed answer) ↔
            ∃ i u, Users w !! i = Some u ∧ a = without_password u)
    ∧ length (listed answer) = size (Users w)
    ∧ (answer = Failed (mkHttpError "No authors have registered in the database."
                                    (Some 404)) ↔
       Users w = ∅).
Proof.
  rewrite getAuthors_run. cbv zeta. set (authors := without_password <$> _).
  assert (Hlen : length authors = size (Users w)).
  { unfold authors. by rewrite !length_fmap, length_map_to_list. }
  assert (Hin : ∀ a, In a authors ↔
                     ∃ i u, Users w !! i = Some u ∧ a = without_password u).
  { intros a. unfold authors. rewrite <- list_elem_of_In, list_elem_of_fmap. split.
    - intros (u & -> & Hu). apply list_elem_of_In, In_documents in Hu as [i Hi].
      by exists i, u.
    - intros (i & u & Hi & ->). exists u. split; [done |].
      apply list_elem_of_In, In_documents. by exists i. }
  eexists. split; [reflexivity |].
  rewrite <- map_size_empty_iff, <- Hlen.
  destruct authors as [| a authors]; cbn [length Nat.eqb listed];
    (split; [exact Hin |]); by split.
Qed.

Lemma is_syntax_lower_char (x : ascii) :
  RegExp.is_syntax (Js.lower_char x) = false → RegExp.is_syntax x = false.
Proof. destruct x as [[] [] [] [] [] [] [] []]; vm_compute; congruence. Qed.

Lemma plain_toLowerCase (c : string) :
  plain (Js.toLowerCase c) = true → plain c = true.
Proof.
  unfold plain. induction c as [| x c IH]; [done |]. cbn.
  rewrite !andb_true_iff, !negb_true_iff. intros [Hx Hc].
  split; [by apply is_syntax_lower_char | by apply IH].
Qed.

(** X14.  For a category name of the list, written in any letter case,
    [getCatPosts] changes nothing and lists exactly the stored posts of
    that category, most recently updated first, or answers 404 when
    there is none. *)
Theorem getCatPosts_category (req : Request) (w : World) (c : string) :
  In c categories →
  equal_ignoring_case (params_category req) c →
  ∃ h, getCatPosts req = Some h
       ∧ run h w = (w, listing w (spec_listByCategory c w)).
Proof.
  intros Hc Hcase.
  assert (Hplain : plain (params_category req) = true).
  { apply plain_toLowerCase. rewrite Hcase.
    cbn in Hc. repeat destruct Hc as [<- | Hc]; try reflexivity. destruct Hc. }
  destruct (getCatPosts_plain req w Hplain) as (h & Hh & Hrun).
  exists h. split; [exact Hh |]. rewrite Hrun. do 2 f_equal.
  unfold spec_listByCategory. f_equal. apply filter_ext. intros p.
  apply bool_decide_ext. unfold equal_ignoring_case. by rewrite Hcase.
Qed.

Lemma getCatPosts_category_witness :
  ∃ h, getCatPosts (Blog.by_category "bUSINESS") = Some h
       ∧ run h Blog.world =
           (Blog.world, listing Blog.world (spec_listByCategory "Business" Blog.world)).
Proof.
  apply (getCatPosts_category (Blog.by_category "bUSINESS") Blog.world "Business").
  - simpl. tauto.
  - reflexivity.
Defined.

(** ** A post from creation to deletion *)

(** The effect of a [createPost] that goes through. *)
Lemma createPost_run (e : Env) (req : Request) (w : World)
    (t c d : string) (fs : Files) (f : File) (u : UserDoc) :
  title (body req) = Some t → t ≠ EmptyString →
  category (body req) = Some c → In c categories →
  description (body req) = Some d → d ≠ EmptyString →
  files req = Some fs → thumbnail fs = Some f →
  (file_size f ≤ 2000000)%N →
  Users w !! id (user req) = Some u →
  let newPost :=
    mkPost (fresh (dom (Posts w))) t c d (createPost_filename e f)
           (id (user req)) (now e) (now e) in
  run (createPost e req) w =
    (mkWorld (<[id (user req) := set_posts (user_posts u + 1) u]> (Users w))
             (<[post_id newPost := newPost]> (Posts w))
             ({[createPost_filename e f]} ∪ uploads w),
     [FileMv (createPost_filename e f); PostCreated newPost;
      UserUpdated (id (user req)); Respond 200 (JPost newPost)]).
Proof.
  intros Ht Hne Hc Hin Hd Hdne Hfs Hf Hsize Hu newPost.
  unfold createPost. destruct (body req) as [t' c' d' fn em pw].
  cbn in Ht, Hc, Hd. subst t' c' d'.
  rewrite (falsy_Some t), (falsy_Some d), isValidCategory_In by assumption.
  rewrite (falsy_Some c) by (by apply category_nonempty).
  rewrite Hfs. cbn. rewrite Hf.
  apply N.ltb_ge in Hsize. rewrite Hsize.
  io_unfold. repeat (progress (cbn; rewrite ?Hu)). reflexivity.
Qed.

(** X15.  A post just created can be read: [getPost] on the id the store
    gave it answers 200 with the post as created and with the id, name
    and avatar of the caller who created it. *)
Theorem getPost_after_createPost (castable : string → bool) (e : Env)
    (req r : Request) (w : World) (t c d : string) (fs : Files) (f : File)
    (u : UserDoc) :
  title (body req) = Some t → t ≠ EmptyString →
  category (body req) = Some c → In c categories →
  description (body req) = Some d → d ≠ EmptyString →
  files req = Some fs → thumbnail fs = Some f →
  (file_size f ≤ 2000000)%N →
  Users w !! id (user req) = Some u →
  params_id r = fresh (dom (Posts w)) →
  castable (params_id r) = true →
  let w1 := fst (run (createPost e req) w) in
  getPost castable r w1 =
    (Sent 200 (mkPost (params_id r) t c d (createPost_filename e f)
                      (id (user req)) (now e) (now e),
               Some (mkCreator (user_id u) (user_name u) (user_avatar u))),
     w1, []).
Proof.
  intros Ht Hne Hc Hin Hd Hdne Hfs Hf Hsize Hu Hid Hcast.
  rewrite (createPost_run e req w t c d fs f u) by assumption. cbn [fst].
  unfold getPost. rewrite Hcast, Hid.
  unfold bind, Post_findById, User_findById, ret. cbn.
  rewrite !lookup_insert_eq. cbn. rewrite lookup_insert_eq. reflexivity.
Qed.

(** X16.  A post deleted by its creator can no longer be read: [getPost]
    on its id answers 404. *)
Theorem getPost_after_deletePost (castable : string → bool) (req r : Request)
    (w : World) (post : PostDoc) (u : UserDoc) :
  Posts w !! params_id req = Some post →
  post_creator post = id (user req) →
  post_thumbnail post ∈ uploads w →
  Users w !! id (user req) = Some u →
  params_id r = params_id req →
  castable (params_id r) = true →
  let w1 := fst (run (deletePost req) w) in
  getPost castable r w1 = (Failed (mkHttpError "Post not found" (Some 404)), w1, []).
Proof.
  intros Hpost Hown Hfile Huser Hid Hcast.
  rewrite (deletePost_owner_run req w post u) by assumption. cbn [fst].
  unfold getPost. rewrite Hcast, Hid.
  unfold bind, Post_findById, ret. cbn. by rewrite lookup_delete_eq.
Qed.

(** ** Accounts *)

Lemma User_findOne_unique (w : World) (em : string) (i : string) (u : UserDoc) :
  Users w !! i = Some u → user_email u = em →
  (∀ j v, Users w !! j = Some v → user_email v = em → v = u) →
  User_findOne em w = (Some u, w, []).
Proof.
  intros Hi Hem Huniq.
  destruct (User_findOne_Some w em) as [u' Hu']; [by exists i, u |].
  rewrite Hu'. unfold User_findOne in Hu'. injection Hu' as Hfind.
  apply find_some in Hfind as [Hin Heq].
  apply In_documents in Hin as [j Hj]. apply String.eqb_eq in Heq.
  by rewrite (Huniq j u' Hj Heq).
Qed.

Lemma loginUser_found (req : Request) (w : World) (em pw : string) (u : UserDoc) :
  email (body req) = Some em → em ≠ EmptyString →
  password (body req) = Some pw → pw ≠ EmptyString →
  User_findOne (Js.toLowerCase em) w = (Some u, w, []) →
  run (loginUser req) w =
    (w, [if bcrypt_compare pw (user_password u)
         then Respond 200 (JLogin (mkToken (user_id u) (user_name u) "7d")
                             (user_id u) (user_name u) (Js.toLowerCase em))
         else Next (mkHttpError "The password you've entered is incorrect."
                                (Some 401))]).
Proof.
  intros Hem Hem' Hpw Hpw' Hfind. unfold loginUser.
  destruct (body req) as [t c d fn em0 pw0]. cbn in Hem, Hpw. subst.
  rewrite !falsy_Some by assumption. cbv beta iota delta [orb str default from_option Datatypes.id].
  unfold run, bind. rewrite Hfind.
  by destruct (bcrypt_compare pw (user_password u)).
Qed.

(** X17.  Registration and login fit together: after a registration that
    created the account, a login with the same password and the email
    in any letter case answers 200 with a token for the id and name of
    the new user, valid 7 days, and with the email in lower case. *)
Theorem register_then_login (e : Env) (r l : Request) (w : World)
    (fn em pw em' : string) :
  fullname (body r) = Some fn → fn ≠ EmptyString →
  email (body r) = Some em → em ≠ EmptyString →
  password (body r) = Some pw → 6 ≤ String.length (Js.trim pw) →
  ¬ registered w (Js.toLowerCase em) →
  email (body l) = Some em' → password (body l) = Some pw →
  equal_ignoring_case em em' →
  let w1 := fst (run (registerUser e r) w) in
  let newId := fresh (dom (Users w)) in
  run (loginUser l) w1 =
    (w1, [Respond 200 (JLogin (mkToken newId fn "7d") newId fn (Js.toLowerCase em))]).
Proof.
  intros Hfn Hfn' Hem Hem' Hpw Hlen Hnone Hem2 Hpw2 Hcase.
  unfold equal_ignoring_case in Hcase.
  assert (pw ≠ EmptyString) by eauto using trimmed_nonempty.
  assert (em' ≠ EmptyString) by eauto using toLowerCase_eq_nonempty.
  rewrite (registerUser_created e r w fn em pw) by assumption. cbn [fst].
  rewrite (loginUser_found l _ em' pw (registered_doc e w fn em pw)); try assumption.
  - cbn. rewrite String.eqb_refl, Hcase. reflexivity.
  - rewrite <- Hcase.
    apply (User_findOne_unique _ _ (fresh (dom (Users w)))).
    + apply lookup_insert_eq.
    + reflexivity.
    + intros j v Hj Hv. cbn in Hj.
      destruct (decide (fresh (dom (Users w)) = j)) as [<- | Hne].
      * rewrite lookup_insert_eq in Hj. by injection Hj.
      * rewrite lookup_insert_ne in Hj by done. destruct Hnone. by exists j, v.
Qed.

(** X18.  A login with an email that is registered and a password that
    none of its accounts accepts is answered 401 and changes nothing. *)
Theorem loginUser_wrong_password (req : Request) (w : World) (em pw : string) :
  email (body req) = Some em → em ≠ EmptyString →
  password (body req) = Some pw → pw ≠ EmptyString →
  registered w (Js.toLowerCase em) →
  (∀ i u, Users w !! i = Some u → user_email u = Js.toLowerCase em →
          bcrypt_compare pw (user_password u) = false) →
  run (loginUser req) w =
    (w, [Next (mkHttpError "The password you've entered is incorrect." (Some 401))]).
Proof.
  intros Hem Hem' Hpw Hpw' Hreg Hwrong.
  destruct (User_findOne_Some _ _ Hreg) as [u Hu].
  rewrite (loginUser_found req w em pw u) by assumption.
  unfold User_findOne in Hu. injection Hu as Hfind.
  apply find_some in Hfind as [Hin Heq].
  apply In_documents in Hin as [j Hj]. apply String.eqb_eq in Heq.
  by rewrite (Hwrong j u Hj Heq).
Qed.

(** X19.  A registration whose password, once trimmed, has fewer than 6
    characters is answered 422 and creates no user, also when the email
    is new. *)
Theorem registerUser_short_password (e : Env) (req : Request) (w : World)
    (fn em pw : string) :
  fullname (body req) = Some fn → fn ≠ EmptyString →
  email (body req) = Some em → em ≠ EmptyString →
  password (body req) = Some pw → pw ≠ EmptyString →
  String.length (Js.trim pw) < 6 →
  ¬ registered w (Js.toLowerCase em) →
  run (registerUser e req) w =
    (w, [Next (mkHttpError "Password must be at least 6 characters." (Some 422))]).
Proof.
  intros Hfn Hfn' Hem Hem' Hpw Hpw' Hlen Hnone.
  rewrite (registerUser_fields e req fn em pw) by assumption.
  unfold run, bind. apply User_findOne_None in Hnone. rewrite Hnone.
  apply Nat.ltb_lt in Hlen. cbv beta iota zeta. rewrite Hlen. reflexivity.
Qed.

(** X20.  The creator of an account can read it back: after a
    registration that created the account, [getUser] on the new id
    answers 200 with the name, the email in lower case, no avatar and a
    posts counter of 0. *)
Theorem getUser_after_register (castable : string → bool) (e : Env) (r q : Request)
    (w : World) (fn em pw : string) :
  fullname (body r) = Some fn → fn ≠ EmptyString →
  email (body r) = Some em → em ≠ EmptyString →
  password (body r) = Some pw → 6 ≤ String.length (Js.trim pw) →
  ¬ registered w (Js.toLowerCase em) →
  params_id q = fresh (dom (Users w)) →
  castable (params_id q) = true →
  let w1 := fst (run (registerUser e r) w) in
  getUser castable q w1 =
    (Sent 200 (mkPublicUser (params_id q) fn (Js.toLowerCase em) None 0), w1, []).
Proof.
  intros Hfn Hfn' Hem Hem' Hpw Hlen Hnone Hid Hcast.
  rewrite (registerUser_created e r w fn em pw) by assumption. cbn [fst].
  unfold getUser. rewrite Hcast, Hid.
  unfold bind, User_findById, ret. cbn. by rewrite lookup_insert_eq.
Qed.

Lemma User_findOne_result (w : World) (em : string) :
  ∃ r, User_findOne em w = (r, w, [])
       ∧ match r with
         | Some v => (∃ j, Users w !! j = Some v) ∧ user_email v = em
         | None => ¬ registered w em
         end.
Proof.
  unfold User_findOne. eexists. split; [reflexivity |].
  destruct (List.find _ _) as [v|] eqn:Hfind.
  - apply find_some in Hfind as [Hin Heq].
    apply In_documents in Hin. by apply String.eqb_eq in Heq.
  - pose proof (find_email_spec w em) as H. by rewrite Hfind in H.
Qed.

Lemma registerUser_effect (e : Env) (req : Request) (w : World) :
  let w' := fst (run (registerUser e req) w) in
  w' = w
  ∨ ∃ doc, user_id doc = fresh (dom (Users w))
           ∧ ¬ registered w (user_email doc)
           ∧ Users w' = <[user_id doc := doc]> (Users w).
Proof.
  unfold registerUser. destruct (body req) as [t c d fn em pw].
  destruct (_ || _); [by left |].
  unfold run, bind.
  destruct (User_findOne_result w (Js.toLowerCase (str em))) as (r & Hr & Hspec).
  rewrite Hr. destruct r as [v|]; [by left |].
  cbn [bool_decide]. destruct (_ <? _); [by left |].
  right. eexists (mkUser _ _ _ _ _ _). cbn. repeat split; try reflexivity. exact Hspec.
Qed.

(** X21.  [registerUser] keeps the user collection free of duplicate
    emails: where every user document sits under its own id and no two
    share an email, the same holds after any registration request. *)
Theorem registerUser_preserves_emails_unique (e : Env) (req : Request) (w : World) :
  emails_unique w →
  emails_unique (fst (run (registerUser e req) w)).
Proof.
  intros [Hwf Huniq].
  destruct (registerUser_effect e req w) as [-> | (doc & Hid & Hnew & HU)];
    [by split |].
  split.
  - intros i u Hi. rewrite HU in Hi.
    destruct (decide (user_id doc = i)) as [<- | Hne].
    + rewrite lookup_insert_eq in Hi. by injection Hi as <-.
    + rewrite lookup_insert_ne in Hi by done. by apply Hwf.
  - intros i j u v Hi Hj Hemail. rewrite HU in Hi, Hj.
    destruct (decide (user_id doc = i)) as [<- | Hi'],
             (decide (user_id doc = j)) as [<- | Hj']; [done | | |].
    + rewrite lookup_insert_eq in Hi. injection Hi as <-.
      rewrite lookup_insert_ne in Hj by done.
      destruct Hnew. by exists j, v.
    + rewrite lookup_insert_eq in Hj. injection Hj as <-.
      rewrite lookup_insert_ne in Hi by done.
      destruct Hnew. by exists i, u.
    + rewrite lookup_insert_ne in Hi, Hj by done. by eapply Huniq.
Qed.

Lemma Blog_emails_unique : emails_unique Blog.world.
Proof.
  split.
  - intros i u Hi. cbn [Users Blog.world] in Hi.
    by apply lookup_singleton_Some in Hi as [<- <-].
  - intros i j u v Hi Hj _. cbn [Users Blog.world] in Hi, Hj.
    apply lookup_singleton_Some in Hi as [<- _].
    by apply lookup_singleton_Some in Hj as [<- _].
Qed.

Lemma registerUser_preserves_emails_unique_witness :
  emails_unique
    (fst (run (registerUser Blog.env (Blog.register "Bob" "Bob@Example.org" "secret2"))
            Blog.world)).
Proof.
  apply (registerUser_preserves_emails_unique Blog.env
           (Blog.register "Bob" "Bob@Example.org" "secret2") Blog.world).
  apply Blog_emails_unique.
Defined.

(** ** editUser *)

Lemma loginUser_not_found (req : Request) (w : World) (em pw : string) :
  email (body req) = Some em → em ≠ EmptyString →
  password (body req) = Some pw → pw ≠ EmptyString →
  ¬ registered w (Js.toLowerCase em) →
  run (loginUser req) w =
    (w, [Next (mkHttpError
                 "We couldn't find an account linked to this email address."
                 (Some 422))]).
Proof.
  intros Hem Hem' Hpw Hpw' Hnone. unfold loginUser.
  destruct (body req) as [t c d fn em0 pw0]. cbn in Hem, Hpw. subst.
  rewrite !falsy_Some by assumption.
  cbv beta iota delta [orb str default from_option Datatypes.id].
  unfold run, bind. apply User_findOne_None in Hnone. by rewrite Hnone.
Qed.

Section EditUser.
Variables (e : Env) (who : Identity) (b : ProfileBody) (w : World).
Variables (nm em cur new : string) (u : UserDoc).
Hypothesis Hname : profile_name b = Some nm.
Hypothesis Hnm : nm ≠ EmptyString.
Hypothesis Hemail : profile_email b = Some em.
Hypothesis Hem : em ≠ EmptyString.
Hypothesis Hcurrent : currentPassword b = Some cur.
Hypothesis Hcur : cur ≠ EmptyString.
Hypothesis Hnewpw : newPassword b = Some new.
Hypothesis Hnew : new ≠ EmptyString.
Hypothesis Huser : Users w !! id who = Some u.

(** With its four fields present and the caller found, [editUser] is
    its chain of checks. *)
Lemma editUser_fields :
  editUser e who b w =
    (let found := fst (fst (User_findOne em w)) in
     if match found with
        | Some other => negb (String.eqb (user_id other) (id who))
        | None => false
        end
     then (Failed (mkHttpError "Email already exists." (Some 422)), w, [])
     else if negb (bcrypt_compare cur (user_password u))
     then (Failed (mkHttpError "Current password do not match." (Some 422)), w, [])
     else if negb (bool_decide (Some new = confirmNewPassword b))
     then (Failed (mkHttpError "New passwords do not match." (Some 422)), w, [])
     else if String.eqb cur new
     then (Failed (mkHttpError
                     "New password must be different from the current password."
                     (Some 422)), w, [])
     else
       let doc := mkUser (user_id u) nm em (Bcrypt (salt e) new) (user_avatar u)
                         (user_posts u) in
       (Sent 200 (Some (without_password doc)),
        mkWorld (<[id who := doc]> (Users w)) (Posts w) (uploads w),
        [UserUpdated (id who)])).
Proof.
  unfold editUser. destruct b as [n0 e0 c0 p0 conf].
  cbn in Hname, Hemail, Hcurrent, Hnewpw. subst n0 e0 c0 p0.
  rewrite !falsy_Some by assumption.
  cbv beta iota delta [orb str default from_option Datatypes.id].
  unfold bind, User_findById. rewrite Huser.
  destruct (User_findOne_result w em) as (r & Hr & _). rewrite Hr. cbn [fst].
  destruct (match r with Some _ => _ | None => _ end); [reflexivity |].
  destruct (negb (bcrypt_compare _ _)); [reflexivity |].
  cbn [confirmNewPassword].
  destruct (negb (bool_decide _)); [reflexivity |].
  destruct (String.eqb cur new); [reflexivity |].
  unfold User_findByIdAndUpdate, ret. rewrite Huser. reflexivity.
Qed.

(** The email is free for the caller: whoever holds it has the caller's
    id. *)
Hypothesis Hfree : ∀ j v, Users w !! j = Some v → user_email v = em →
                          user_id v = id who.

Lemma editUser_email_free :
  match fst (fst (User_findOne em w)) with
  | Some other => negb (String.eqb (user_id other) (id who))
  | None => false
  end = false.
Proof.
  destruct (User_findOne_result w em) as (r & Hr & Hspec). rewrite Hr. cbn.
  destruct r as [v|]; [| done]. destruct Hspec as [[j Hj] Hv].
  by rewrite (Hfree j v Hj Hv), String.eqb_refl.
Qed.

(** X22.  An [editUser] whose current password verifies and whose new
    password is confirmed and different stores the name and the email
    as given and the hash of the new password; id, avatar and posts
    counter of the user, the other users, posts and files are kept; the
    answer is the updated user without the password. *)
Theorem editUser_success :
  bcrypt_compare cur (user_password u) = true →
  confirmNewPassword b = Some new →
  cur ≠ new →
  let doc := mkUser (user_id u) nm em (Bcrypt (salt e) new) (user_avatar u)
                    (user_posts u) in
  editUser e who b w =
    (Sent 200 (Some (mkPublicUser (user_id u) nm em (user_avatar u) (user_posts u))),
     mkWorld (<[id who := doc]> (Users w)) (Posts w) (uploads w),
     [UserUpdated (id who)]).
Proof.
  intros Hcompare Hconfirm Hdiff doc.
  rewrite editUser_fields. cbv zeta. rewrite editUser_email_free, Hcompare, Hconfirm.
  rewrite bool_decide_eq_true_2 by done.
  apply String.eqb_neq in Hdiff. rewrite Hdiff. reflexivity.
Qed.

(** X23.  [editUser] changes nothing and answers 422 when the current
    password does not verify, when the new password is not confirmed by
    an equal one, or when it equals the current password. *)
Theorem editUser_password_rules :
  bcrypt_compare cur (user_password u) = false
  ∨ confirmNewPassword b ≠ Some new
  ∨ cur = new →
  ∃ msg, editUser e who b w = (Failed (mkHttpError msg (Some 422)), w, []).
Proof.
  intros Hrule. rewrite editUser_fields. cbv zeta. rewrite editUser_email_free.
  destruct (bcrypt_compare cur (user_password u)); [| eexists; reflexivity].
  destruct (decide (Some new = confirmNewPassword b)) as [Hconf | Hconf].
  - rewrite (bool_decide_eq_true_2 _ Hconf).
    destruct Hrule as [? | [? | ->]]; [done | congruence |].
    rewrite String.eqb_refl. eexists. reflexivity.
  - rewrite (bool_decide_eq_false_2 _ Hconf). eexists. reflexivity.
Qed.

(** X24.  [editUser] stores the email as typed while [loginUser] looks
    the lower-case form up: after an edit to an email with an upper-case
    letter that nobody holds in lower case, a login with the new email
    and the new password is answered 422, no account found. *)
Theorem editUser_then_login_not_found (l : Request) :
  bcrypt_compare cur (user_password u) = true →
  confirmNewPassword b = Some new →
  cur ≠ new →
  Js.toLowerCase em ≠ em →
  ¬ registered w (Js.toLowerCase em) →
  email (body l) = Some em → password (body l) = Some new →
  let w1 := snd (fst (editUser e who b w)) in
  run (loginUser l) w1 =
    (w1, [Next (mkHttpError
                  "We couldn't find an account linked to this email address."
                  (Some 422))]).
Proof.
  intros Hcompare Hconfirm Hdiff Hcase Hnone Hlem Hlpw.
  rewrite editUser_fields. cbv zeta. rewrite editUser_email_free, Hcompare, Hconfirm.
  rewrite bool_decide_eq_true_2 by done.
  apply String.eqb_neq in Hdiff. rewrite Hdiff. cbn [negb fst snd].
  apply (loginUser_not_found l _ em new); try assumption.
  intros (j & v & Hj & Hv). cbn in Hj.
  destruct (decide (id who = j)) as [<- | Hne].
  - rewrite lookup_insert_eq in Hj. injection Hj as <-. by cbn in Hv.
  - rewrite lookup_insert_ne in Hj by done. apply Hnone. by exists j, v.
Qed.
End EditUser.

Lemma editUser_effect (e : Env) (who : Identity) (b : ProfileBody) (w : World) :
  let w' := snd (fst (editUser e who b w)) in
  w' = w
  ∨ ∃ u doc, Users w !! id who = Some u
             ∧ match fst (fst (User_findOne (user_email doc) w)) with
               | Some other => user_id other = id who
               | None => True
               end
             ∧ user_id doc = user_id u
             ∧ Users w' = <[id who := doc]> (Users w).
Proof.
  unfold editUser. destruct b as [n0 e0 c0 p0 conf].
  destruct (_ || _); [by left |].
  unfold bind, User_findById.
  destruct (Users w !! id who) as [u|] eqn:Hu; [| by left].
  cbv beta iota zeta.
  pose proof (User_findOne_result w (str e0)) as (r & Hr & Hspec). rewrite Hr.
  destruct (match r with Some _ => _ | None => _ end) eqn:Hcheck; [by left |].
  destruct (negb (bcrypt_compare _ _)); [by left |].
  destruct (negb (bool_decide _)); [by left |].
  destruct (String.eqb _ _); [by left |].
  right. unfold User_findByIdAndUpdate, ret. rewrite Hu.
  exists u. eexists (mkUser _ _ _ _ _ _). cbn [user_email user_id].
  rewrite Hr. cbn [fst snd].
  split; [done |]. split; [| by split].
  destruct r as [other|]; [| done].
  apply negb_false_iff in Hcheck. by apply String.eqb_eq in Hcheck.
Qed.

(** X25.  [editUser] keeps the user collection free of duplicate emails:
    where every user document sits under its own id and no two share an
    email, the same holds after any profile edit. *)
Theorem editUser_preserves_emails_unique (e : Env) (who : Identity) (b : ProfileBody)
    (w : World) :
  emails_unique w →
  emails_unique (snd (fst (editUser e who b w))).
Proof.
  intros [Hwf Huniq].
  destruct (editUser_effect e who b w) as [-> | (u & doc & Hu & Hcheck & Hid & HU)];
    [by split |].
  assert (Hothers : ∀ j v, Users w !! j = Some v →
                           user_email v = user_email doc → j = id who).
  { intros j v Hj Hv.
    destruct (User_findOne_result w (user_email doc)) as (r & Hr & Hspec).
    rewrite Hr in Hcheck. cbn in Hcheck. destruct r as [other|].
    - destruct Hspec as [[k Hk] Hother].
      rewrite <- Hcheck, (Hwf k other Hk).
      apply (Huniq j k v other Hj Hk). congruence.
    - destruct Hspec. by exists j, v. }
  split.
  - intros i x Hi. rewrite HU in Hi.
    destruct (decide (id who = i)) as [<- | Hne].
    + rewrite lookup_insert_eq in Hi. injection Hi as <-.
      rewrite Hid. by apply Hwf.
    + rewrite lookup_insert_ne in Hi by done. by apply Hwf.
  - intros i j x y Hi Hj Hemail. rewrite HU in Hi, Hj.
    destruct (decide (id who = i)) as [<- | Hi'],
             (decide (id who = j)) as [<- | Hj']; [done | | |].
    + rewrite lookup_insert_eq in Hi. injection Hi as <-.
      rewrite lookup_insert_ne in Hj by done.
      symmetry. by apply (Hothers j y).
    + rewrite lookup_insert_eq in Hj. injection Hj as <-.
      rewrite lookup_insert_ne in Hi by done.
      by apply (Hothers i x).
    + rewrite lookup_insert_ne in Hi, Hj by done. by eapply Huniq.
Qed.

(** X26.  [editUser] refuses an email that another user holds: where
    emails are unique, the answer is 422 "Email already exists." and
    nothing changes, whatever the passwords. *)
Theorem editUser_email_taken (e : Env) (who : Identity) (b : ProfileBody) (w : World)
    (nm em cur new : string) (u v : UserDoc) (j : string) :
  profile_name b = Some nm → nm ≠ EmptyString →
  profile_email b = Some em → em ≠ EmptyString →
  currentPassword b = Some cur → cur ≠ EmptyString →
  newPassword b = Some new → new ≠ EmptyString →
  Users w !! id who = Some u →
  emails_unique w →
  Users w !! j = Some v → user_email v = em → j ≠ id who →
  editUser e who b w =
    (Failed (mkHttpError "Email already exists." (Some 422)), w, []).
Proof.
  intros Hname Hnm Hemail Hem Hcurrent Hcur Hnewpw Hnew Huser [Hwf Huniq] Hj Hv Hne.
  rewrite (editUser_fields e who b w nm em cur new u) by assumption.
  rewrite (User_findOne_unique w em j v) by
    (try done; intros k x Hk Hx; assert (k = j) by (eapply Huniq; eauto; congruence);
     congruence).
  cbn [fst]. rewrite (Hwf j v Hj).
  apply String.eqb_neq in Hne. by rewrite Hne.
Qed.

(** X27.  After a successful [editUser] to an email in lower case that no
    other user holds, a login with that email accepts the new password,
    with a token for the same id and the new name, and refuses the old
    one with 401. *)
Theorem editUser_then_login (e : Env) (who : Identity) (b : ProfileBody) (w : World)
    (nm em cur new : string) (u : UserDoc) (l l' : Request) :
  profile_name b = Some nm → nm ≠ EmptyString →
  profile_email b = Some em → em ≠ EmptyString →
  currentPassword b = Some cur → cur ≠ EmptyString →
  newPassword b = Some new → new ≠ EmptyString →
  Users w !! id who = Some u → user_id u = id who →
  (∀ j v, Users w !! j = Some v → user_email v = em → j = id who) →
  bcrypt_compare cur (user_password u) = true →
  confirmNewPassword b = Some new →
  cur ≠ new →
  Js.toLowerCase em = em →
  email (body l) = Some em → password (body l) = Some new →
  email (body l') = Some em → password (body l') = Some cur →
  let w1 := snd (fst (editUser e who b w)) in
  run (loginUser l) w1 =
    (w1, [Respond 200 (JLogin (mkToken (id who) nm "7d") (id who) nm em)])
  ∧ run (loginUser l') w1 =
      (w1, [Next (mkHttpError "The password you've entered is incorrect."
                              (Some 401))]).
Proof.
  intros Hname Hnm Hemail Hem Hcurrent Hcur Hnewpw Hnew Huser Hid Hothers
         Hcompare Hconfirm Hdiff Hlower Hl Hlpw Hl' Hlpw'.
  rewrite (editUser_fields e who b w nm em cur new u) by assumption. cbv zeta.
  rewrite (editUser_email_free who w em).
  2: { intros j v Hj Hv. pose proof (Hothers j v Hj Hv) as ->. congruence. }
  rewrite Hcompare, Hconfirm, bool_decide_eq_true_2 by done.
  apply String.eqb_neq in Hdiff as Hneq. rewrite Hneq. cbn [negb fst snd].
  set (doc := mkUser (user_id u) nm em (Bcrypt (salt e) new) (user_avatar u)
                     (user_posts u)).
  set (w1 := mkWorld _ _ _).
  assert (Hfind : User_findOne (Js.toLowerCase em) w1 = (Some doc, w1, [])).
  { rewrite Hlower. apply (User_findOne_unique w1 em (id who)).
    - apply lookup_insert_eq.
    - reflexivity.
    - intros j v Hj Hv. cbn in Hj.
      destruct (decide (id who = j)) as [<- | Hne].
      + rewrite lookup_insert_eq in Hj. by injection Hj.
      + rewrite lookup_insert_ne in Hj by done. destruct Hne. symmetry. eauto. }
  split.
  - rewrite (loginUser_found l w1 em new doc) by assumption.
    cbn. by rewrite String.eqb_refl, Hid, Hlower.
  - rewrite (loginUser_found l' w1 em cur doc) by assumption.
    cbn. by rewrite Hneq.
Qed.

(** ** changeAvatar *)

(** X28.  A [changeAvatar] with a file of at most 500,000 bytes, by a user
    whose previous avatar, if any, is on disk, swaps the files and
    touches nothing but the avatar: the new file enters the uploads
    folder under the unique id and the extension of the upload, the
    previous one leaves it, the user document names the new file and
    keeps the rest, and the answer is 200 with the id and the new
    avatar. *)
Theorem changeAvatar_success (e : Env) (req : Request) (w : World)
    (fs : Files) (a : File) (u : UserDoc) :
  files req = Some fs → avatar fs = Some a →
  Users w !! id (user req) = Some u →
  (file_size a ≤ 500000)%N →
  match user_avatar u with
  | Some old => old ≠ EmptyString ∧ old ∈ uploads w
  | None => True
  end →
  let newFilename :=
    uuid e +:+ "." +:+ List.last (Js.split "." (file_name a)) EmptyString in
  fst (run (changeAvatar e req) w) =
    mkWorld (<[id (user req) := set_avatar newFilename u]> (Users w)) (Posts w)
            ({[newFilename]}
             ∪ (uploads w ∖ match user_avatar u with
                            | Some old => {[old]}
                            | None => ∅
                            end))
  ∧ reply (snd (run (changeAvatar e req) w)) =
      Some (Respond 200 (JAvatar (user_id u) (Some newFilename))).
Proof.
  intros Hfs Ha Hu Hsize Hold newFilename. apply N.ltb_ge in Hsize.
  unfold changeAvatar. rewrite Hfs, Ha. io_unfold. rewrite Hu, Hsize.
  destruct (user_avatar u) as [old|] eqn:Havatar.
  - destruct Hold as [Hne Hin]. rewrite (falsy_Some old Hne).
    cbn [negb str default from_option Datatypes.id].
    rewrite (bool_decide_eq_true_2 _ Hin).
    repeat (progress (cbn; rewrite ?Hu)). done.
  - cbn [Js.falsy negb]. repeat (progress (cbn; rewrite ?Hu)).
    by rewrite difference_empty_L.
Qed.

(** ** The properties on the small blog *)

Lemma Blog_not_registered (em : string) :
  fst (fst (User_findOne em Blog.world)) = None → ¬ registered Blog.world em.
Proof.
  intros Hfind. apply User_findOne_None. unfold User_findOne in *.
  cbn [fst] in Hfind. by rewrite Hfind.
Qed.

Lemma Blog_only_Ann (j : string) (v : UserDoc) :
  Users Blog.world !! j = Some v → j = "u1" ∧ v = Blog.ann.
Proof.
  cbn [Users Blog.world]. intros Hj.
  by apply lookup_singleton_Some in Hj as [<- <-].
Qed.

Lemma editPost_owner_content_witness :
  run (editPost Blog.env (Blog.edit_p1 Blog.Ann None)) Blog.world =
    (mkWorld (Users Blog.world)
       (<["p1" := mkPost "p1" "Sculpture" "Art" "<p>About sculpture</p>" "pic.png"
                         "u1" 10 30]> (Posts Blog.world))
       (uploads Blog.world),
     [PostUpdated "p1";
      Respond 200 (JPost (mkPost "p1" "Sculpture" "Art" "<p>About sculpture</p>"
                            "pic.png" "u1" 10 30))]).
Proof.
  apply (editPost_owner_content Blog.env (Blog.edit_p1 Blog.Ann None) Blog.world
           "Sculpture" "Art" "<p>About sculpture</p>" Blog.art_post).
  - reflexivity.
  - discriminate.
  - reflexivity.
  - simpl. tauto.
  - reflexivity.
  - simpl. lia.
  - vm_compute. reflexivity.
  - reflexivity.
  - reflexivity.
Defined.

Lemma editPost_swaps_thumbnail_witness :
  fst (run (editPost Blog.env
              (Blog.edit_p1 Blog.Ann (Blog.upload_thumbnail Blog.small_file)))
         Blog.world) =
    mkWorld (Users Blog.world)
      (<["p1" := mkPost "p1" "Sculpture" "Art" "<p>About sculpture</p>"
                        "new1b9d6bcd.png" "u1" 10 30]> (Posts Blog.world))
      ({["new1b9d6bcd.png"]} ∪ (uploads Blog.world ∖ {["pic.png"]})).
Proof.
  apply (editPost_swaps_thumbnail Blog.env
           (Blog.edit_p1 Blog.Ann (Blog.upload_thumbnail Blog.small_file)) Blog.world
           "Sculpture" "Art" "<p>About sculpture</p>" Blog.art_post
           eq_refl ltac:(discriminate) eq_refl ltac:(simpl; tauto) eq_refl
           ltac:(simpl; lia) ltac:(vm_compute; reflexivity) eq_refl
           (mkFiles (Some Blog.small_file) None) Blog.small_file).
  - reflexivity.
  - reflexivity.
  - vm_compute. discriminate.
Defined.

Lemma getPost_after_createPost_witness :
  let w1 := fst (run (createPost Blog.env Blog.create_weather) Blog.world) in
  let newId := fresh (dom (Posts Blog.world)) in
  getPost any_id (Town.by_id newId) w1 =
    (Sent 200 (mkPost newId "Rain" "Weather" "<p>About rain</p>" "1b9d6bcd.jpg"
                      "u1" 30 30,
               Some (mkCreator "u1" "Ann" None)),
     w1, []).
Proof.
  refine (getPost_after_createPost any_id Blog.env Blog.create_weather
            (Town.by_id (fresh (dom (Posts Blog.world)))) Blog.world
            "Rain" "Weather" "<p>About rain</p>"
            (mkFiles (Some (mkFile "rain.photo.jpg" 2000000)) None)
            (mkFile "rain.photo.jpg" 2000000) Blog.ann _ _ _ _ _ _ _ _ _ _ _ _).
  - reflexivity.
  - discriminate.
  - reflexivity.
  - simpl. tauto.
  - reflexivity.
  - discriminate.
  - reflexivity.
  - reflexivity.
  - vm_compute. discriminate.
  - vm_compute. reflexivity.
  - reflexivity.
  - reflexivity.
Defined.

Lemma getPost_after_deletePost_witness :
  let w1 := fst (run (deletePost (Blog.delete_p1 Blog.Ann)) Blog.world) in
  getPost any_id (Town.by_id "p1") w1 =
    (Failed (mkHttpError "Post not found" (Some 404)), w1, []).
Proof.
  apply (getPost_after_deletePost any_id (Blog.delete_p1 Blog.Ann) (Town.by_id "p1")
           Blog.world Blog.art_post Blog.ann);
    vm_compute; reflexivity.
Defined.

Lemma register_then_login_witness :
  let w1 := fst (run (registerUser Blog.env
                        (Blog.register "Bob" "Bob@Example.org" "secret2"))
                   Blog.world) in
  let newId := fresh (dom (Users Blog.world)) in
  run (loginUser (Blog.login "BOB@example.ORG" "secret2")) w1 =
    (w1, [Respond 200 (JLogin (mkToken newId "Bob" "7d") newId "Bob"
                         "bob@example.org")]).
Proof.
  apply (register_then_login Blog.env
           (Blog.register "Bob" "Bob@Example.org" "secret2")
           (Blog.login "BOB@example.ORG" "secret2") Blog.world
           "Bob" "Bob@Example.org" "secret2" "BOB@example.ORG").
  - reflexivity.
  - discriminate.
  - reflexivity.
  - discriminate.
  - reflexivity.
  - vm_compute. lia.
  - apply Blog_not_registered. vm_compute. reflexivity.
  - reflexivity.
  - reflexivity.
  - vm_compute. reflexivity.
Defined.

Lemma loginUser_wrong_password_witness :
  run (loginUser (Blog.login "Ann@Example.org" "guess")) Blog.world =
    (Blog.world,
     [Next (mkHttpError "The password you've entered is incorrect." (Some 401))]).
Proof.
  apply (loginUser_wrong_password (Blog.login "Ann@Example.org" "guess") Blog.world
           "Ann@Example.org" "guess").
  - reflexivity.
  - discriminate.
  - reflexivity.
  - discriminate.
  - exists "u1", Blog.ann. split; vm_compute; reflexivity.
  - intros i u Hi _. apply Blog_only_Ann in Hi as [_ ->]. vm_compute. reflexivity.
Defined.

Lemma registerUser_short_password_witness :
  run (registerUser Blog.env (Blog.register "Bob" "bob@example.org" "  abc  "))
      Blog.world =
    (Blog.world,
     [Next (mkHttpError "Password must be at least 6 characters." (Some 422))]).
Proof.
  apply (registerUser_short_password Blog.env
           (Blog.register "Bob" "bob@example.org" "  abc  ") Blog.world
           "Bob" "bob@example.org" "  abc  ").
  - reflexivity.
  - discriminate.
  - reflexivity.
  - discriminate.
  - reflexivity.
  - discriminate.
  - vm_compute. lia.
  - apply Blog_not_registered. vm_compute. reflexivity.
Defined.

Lemma getUser_after_register_witness :
  let w1 := fst (run (registerUser Blog.env
                        (Blog.register "Bob" "Bob@Example.org" "secret2"))
                   Blog.world) in
  let newId := fresh (dom (Users Blog.world)) in
  getUser any_id (Town.by_id newId) w1 =
    (Sent 200 (mkPublicUser newId "Bob" "bob@example.org" None 0), w1, []).
Proof.
  refine (getUser_after_register any_id Blog.env
            (Blog.register "Bob" "Bob@Example.org" "secret2")
            (Town.by_id (fresh (dom (Users Blog.world)))) Blog.world
            "Bob" "Bob@Example.org" "secret2" _ _ _ _ _ _ _ _ _).
  - reflexivity.
  - discriminate.
  - reflexivity.
  - discriminate.
  - reflexivity.
  - vm_compute. lia.
  - apply Blog_not_registered. vm_compute. reflexivity.
  - reflexivity.
  - reflexivity.
Defined.

Lemma Blog_email_free (em : string) (j : string) (v : UserDoc) :
  Users Blog.world !! j = Some v → user_email v = em → user_id v = id Blog.Ann.
Proof. intros Hj _. by apply Blog_only_Ann in Hj as [_ ->]. Qed.

Lemma editUser_success_witness :
  editUser Blog.env Blog.Ann (Town.profile "Ann.B@Example.org") Blog.world =
    (Sent 200 (Some (mkPublicUser "u1" "Ann B" "Ann.B@Example.org" None 2)),
     mkWorld (<["u1" := mkUser "u1" "Ann B" "Ann.B@Example.org"
                               (Bcrypt "salt1" "secret9") None 2]> (Users Blog.world))
             (Posts Blog.world) (uploads Blog.world),
     [UserUpdated "u1"]).
Proof.
  refine (editUser_success Blog.env Blog.Ann (Town.profile "Ann.B@Example.org")
            Blog.world "Ann B" "Ann.B@Example.org" "secret1" "secret9" Blog.ann
            _ _ _ _ _ _ _ _ _ _ _ _ _).
  - reflexivity.
  - discriminate.
  - reflexivity.
  - discriminate.
  - reflexivity.
  - discriminate.
  - reflexivity.
  - discriminate.
  - vm_compute. reflexivity.
  - apply Blog_email_free.
  - vm_compute. reflexivity.
  - reflexivity.
  - discriminate.
Defined.

Lemma editUser_password_rules_witness :
  ∃ msg, editUser Blog.env Blog.Ann Town.unconfirmed Blog.world =
           (Failed (mkHttpError msg (Some 422)), Blog.world, []).
Proof.
  refine (editUser_password_rules Blog.env Blog.Ann Town.unconfirmed Blog.world
            "Ann B" "ann.b@example.org" "secret1" "secret9" Blog.ann
            _ _ _ _ _ _ _ _ _ _ _).
  - reflexivity.
  - discriminate.
  - reflexivity.
  - discriminate.
  - reflexivity.
  - discriminate.
  - reflexivity.
  - discriminate.
  - vm_compute. reflexivity.
  - apply Blog_email_free.
  - right. left. vm_compute. discriminate.
Defined.

Lemma editUser_then_login_not_found_witness :
  let w1 := snd (fst (editUser Blog.env Blog.Ann (Town.profile "Ann.B@Example.org")
                        Blog.world)) in
  run (loginUser (Blog.login "Ann.B@Example.org" "secret9")) w1 =
    (w1, [Next (mkHttpError
                  "We couldn't find an account linked to this email address."
                  (Some 422))]).
Proof.
  refine (editUser_then_login_not_found Blog.env Blog.Ann
            (Town.profile "Ann.B@Example.org") Blog.world
            "Ann B" "Ann.B@Example.org" "secret1" "secret9" Blog.ann
            _ _ _ _ _ _ _ _ _ _
            (Blog.login "Ann.B@Example.org" "secret9") _ _ _ _ _ _ _).
  - reflexivity.
  - discriminate.
  - reflexivity.
  - discriminate.
  - reflexivity.
  - discriminate.
  - reflexivity.
  - discriminate.
  - vm_compute. reflexivity.
  - apply Blog_email_free.
  - vm_compute. reflexivity.
  - reflexivity.
  - discriminate.
  - vm_compute. discriminate.
  - apply Blog_not_registered. vm_compute. reflexivity.
  - reflexivity.
  - reflexivity.
Defined.

Lemma editUser_then_login_witness :
  let w1 := snd (fst (editUser Blog.env Blog.Ann (Town.profile "ann.b@example.org")
                        Blog.world)) in
  run (loginUser (Blog.login "ann.b@example.org" "secret9")) w1 =
    (w1, [Respond 200 (JLogin (mkToken "u1" "Ann B" "7d") "u1" "Ann B"
                         "ann.b@example.org")])
  ∧ run (loginUser (Blog.login "ann.b@example.org" "secret1")) w1 =
      (w1, [Next (mkHttpError "The password you've entered is incorrect."
                              (Some 401))]).
Proof.
  refine (editUser_then_login Blog.env Blog.Ann (Town.profile "ann.b@example.org")
            Blog.world "Ann B" "ann.b@example.org" "secret1" "secret9" Blog.ann
            (Blog.login "ann.b@example.org" "secret9")
            (Blog.login "ann.b@example.org" "secret1")
            _ _ _ _ _ _ _ _ _ _ _ _ _ _ _ _ _ _ _).
  - reflexivity.
  - discriminate.
  - reflexivity.
  - discriminate.
  - reflexivity.
  - discriminate.
  - reflexivity.
  - discriminate.
  - vm_compute. reflexivity.
  - reflexivity.
  - intros j v Hj _. by apply Blog_only_Ann in Hj as [-> _].
  - vm_compute. reflexivity.
  - reflexivity.
  - discriminate.
  - vm_compute. reflexivity.
  - reflexivity.
  - reflexivity.
  - reflexivity.
  - reflexivity.
Defined.

Lemma editUser_preserves_emails_unique_witness :
  emails_unique
    (snd (fst (editUser Blog.env Blog.Ann (Town.profile "Ann.B@Example.org")
                 Blog.world))).
Proof.
  apply (editUser_preserves_emails_unique Blog.env Blog.Ann
           (Town.profile "Ann.B@Example.org") Blog.world).
  apply Blog_emails_unique.
Defined.

Lemma Town_users (j : string) (v : UserDoc) :
  Users Town.world !! j = Some v →
  (j = "u1" ∧ v = Blog.ann) ∨ (j = "u2" ∧ v = Town.bob).
Proof.
  cbn [Users Town.world]. intros Hj.
  apply lookup_insert_Some in Hj as [[<- <-] | [_ Hj]]; [by left |].
  apply lookup_singleton_Some in Hj as [<- <-]. by right.
Qed.

Lemma Town_emails_unique : emails_unique Town.world.
Proof.
  split.
  - intros i u Hi. by apply Town_users in Hi as [[-> ->] | [-> ->]].
  - intros i j u v Hi Hj Hemail.
    apply Town_users in Hi as [[-> ->] | [-> ->]];
      apply Town_users in Hj as [[-> ->] | [-> ->]];
      done || (vm_compute in Hemail; discriminate).
Qed.

Lemma editUser_email_taken_witness :
  editUser Blog.env Blog.Ann (Town.profile "bob@example.org") Town.world =
    (Failed (mkHttpError "Email already exists." (Some 422)), Town.world, []).
Proof.
  refine (editUser_email_taken Blog.env Blog.Ann (Town.profile "bob@example.org")
            Town.world "Ann B" "bob@example.org" "secret1" "secret9"
            Blog.ann Town.bob "u2" _ _ _ _ _ _ _ _ _ _ _ _ _).
  - reflexivity.
  - discriminate.
  - reflexivity.
  - discriminate.
  - reflexivity.
  - discriminate.
  - reflexivity.
  - discriminate.
  - vm_compute. reflexivity.
  - apply Town_emails_unique.
  - vm_compute. reflexivity.
  - reflexivity.
  - discriminate.
Defined.

Lemma changeAvatar_success_witness :
  fst (run (changeAvatar Blog.env
              (mkRequest EmptyString EmptyString Blog.no_body
                 (Blog.upload_avatar (mkFile "bob.new.jpeg" 500000)) Blog.Bob))
         Town.world) =
    mkWorld (<["u2" := set_avatar "1b9d6bcd.jpeg" Town.bob]> (Users Town.world))
            (Posts Town.world)
            ({["1b9d6bcd.jpeg"]} ∪ (uploads Town.world ∖ {["bob.png"]}))
  ∧ reply (snd (run (changeAvatar Blog.env
                       (mkRequest EmptyString EmptyString Blog.no_body
                          (Blog.upload_avatar (mkFile "bob.new.jpeg" 500000))
                          Blog.Bob))
                  Town.world)) =
      Some (Respond 200 (JAvatar "u2" (Some "1b9d6bcd.jpeg"))).
Proof.
  refine (changeAvatar_success Blog.env
            (mkRequest EmptyString EmptyString Blog.no_body
               (Blog.upload_avatar (mkFile "bob.new.jpeg" 500000)) Blog.Bob)
            Town.world (mkFiles None (Some (mkFile "bob.new.jpeg" 500000)))
            (mkFile "bob.new.jpeg" 500000) Town.bob _ _ _ _ _).
  - reflexivity.
  - reflexivity.
  - vm_compute. reflexivity.
  - vm_compute. discriminate.
  - split; [discriminate | vm_compute; reflexivity].
Defined.
